(** * BabelDOC web service (web/main.go): task lifecycle engine

    A shallow embedding of the Go program [web/main.go]: the submission
    handler, the single worker ([taskWorker], [processTask], [failTask]),
    the list, detail, download and delete handlers, and the parts of the
    Go standard library they call ([strings], [path/filepath], [time],
    [fmt]).

    Conventions.
    - A Go [string] is a sequence of bytes: Rocq's [string].
    - A Go [map[string]string] that the program ranges over is the list of
      its entries in the order [range] visits them.  Go leaves that order
      unspecified, so every statement about such a loop is made for all
      entry lists.
    - The SQLite table [tasks] is a finite map from the primary key [id]
      to the row ([gmap string Row]); nullable columns are [option]s.
    - A TEXT column or struct field that holds JSON text ([params],
      [output_files]) is stored as the Go value that [json.Unmarshal]
      reads back from it, [None] standing for NULL, the empty string or
      text that does not decode.
    - Everything the program asks of its surroundings (the clock, the
      environment, the file system, the child process) is an explicit
      input of the function that asks. *)

From Stdlib Require Import ZArith Ascii String DecimalString DecimalZ DecimalN DecimalPos.
From stdpp Require Import gmap strings list sorting.

(** ** Bytes of a string *)

Definition bytes (s : string) : list ascii := list_ascii_of_string s.
Definition of_bytes (l : list ascii) : string := string_of_list_ascii l.

(** [s] occurs in [t] as a contiguous run of bytes ([strings.Contains]). *)
Definition Substring (s t : string) : Prop := ∃ a b, t = a +:+ s +:+ b.

(** ** Package [strings] *)

Module GoStrings.

(** [strings.Join(elems, sep)]. *)
Fixpoint Join (elems : list string) (sep : string) : string :=
  match elems with
  | [] => ""
  | [e] => e
  | e :: rest => e +:+ sep +:+ Join rest sep
  end.

(** [strings.Split(s, sep)] for a one-byte separator. *)
Fixpoint Split (s : string) (sep : ascii) : list string :=
  match s with
  | EmptyString => [EmptyString]
  | String c r =>
      if bool_decide (c = sep) then EmptyString :: Split r sep
      else match Split r sep with
           | [] => [String c EmptyString]
           | h :: t => String c h :: t
           end
  end.

(** [strings.HasSuffix]. *)
Definition HasSuffix (s suffix : string) : bool :=
  bool_decide (drop (length (bytes s) - length (bytes suffix)) (bytes s) = bytes suffix).

(** [strings.ToLower] on the ASCII letters.  (On other runes Go applies
    [unicode.ToLower]; none of them maps to a byte of [".pdf"], the only
    text the program compares a lowered string with.) *)
Definition lowerByte (c : ascii) : ascii :=
  let n := N_of_ascii c in
  if ((65 <=? n) && (n <=? 90))%N then ascii_of_N (n + 32) else c.

Definition ToLower (s : string) : string := of_bytes (lowerByte <$> bytes s).

(** *** [strings.TrimSpace]

    Go trims the runes for which [unicode.IsSpace] holds: the six ASCII
    ones and U+0085, U+00A0, U+1680, U+2000..U+200A, U+2028, U+2029,
    U+202F, U+205F, U+3000.  [leadSpace l] is the number of bytes of
    such a rune at the head of [l] (0 if there is none), reading its
    UTF-8 encoding; [tailSpace] reads the same encodings backwards, as
    [utf8.DecodeLastRuneInString] finds them at the end of a string. *)

Definition asciiSpace (n : N) : bool :=
  ((n =? 9) || (n =? 10) || (n =? 11) || (n =? 12) || (n =? 13) || (n =? 32))%N.

Definition space2 (x y : N) : bool :=
  ((x =? 194) && ((y =? 133) || (y =? 160)))%N.

Definition space3 (x y z : N) : bool :=
  (((x =? 225) && (y =? 154) && (z =? 128))
   || ((x =? 226) && (y =? 128)
       && (((128 <=? z) && (z <=? 138)) || (z =? 168) || (z =? 169) || (z =? 175)))
   || ((x =? 226) && (y =? 129) && (z =? 159))
   || ((x =? 227) && (y =? 128) && (z =? 128)))%N.

Definition leadSpace (l : list ascii) : nat :=
  match l with
  | [] => 0
  | a :: r =>
      if asciiSpace (N_of_ascii a) then 1
      else match r with
           | [] => 0
           | b :: r2 =>
               if space2 (N_of_ascii a) (N_of_ascii b) then 2
               else match r2 with
                    | [] => 0
                    | c :: _ =>
                        if space3 (N_of_ascii a) (N_of_ascii b) (N_of_ascii c)
                        then 3 else 0
                    end
           end
  end.

Definition tailSpace (l : list ascii) : nat :=
  match l with
  | [] => 0
  | a :: r =>
      if asciiSpace (N_of_ascii a) then 1
      else match r with
           | [] => 0
           | b :: r2 =>
               if space2 (N_of_ascii b) (N_of_ascii a) then 2
               else match r2 with
                    | [] => 0
                    | c :: _ =>
                        if space3 (N_of_ascii c) (N_of_ascii b) (N_of_ascii a)
                        then 3 else 0
                    end
           end
  end.

(** Remove runes from the head of [l] for as long as [lead] finds one. *)
Fixpoint strip (lead : list ascii → nat) (fuel : nat) (l : list ascii) : list ascii :=
  match fuel with
  | 0 => l
  | S fuel' =>
      match lead l with
      | 0 => l
      | S n => strip lead fuel' (drop (S n) l)
      end
  end.

Definition trimLeft (l : list ascii) : list ascii := strip leadSpace (length l) l.
Definition trimRight (l : list ascii) : list ascii :=
  rev (strip tailSpace (length l) (rev l)).

Definition TrimSpace (s : string) : string := of_bytes (trimRight (trimLeft (bytes s))).

End GoStrings.

(** ** Package [path/filepath] (Unix) *)

Module Filepath.

(** The elements of [path] between separators; ["/a//b"] gives
    [[""; "a"; ""; "b"]]. *)
Definition elements (path : string) : list string := GoStrings.Split path "/".

(** The loop of [filepath.Clean] over the elements of the path.  [out]
    holds the elements kept so far, last one first.  An empty element
    or ["."] is dropped; [".."] removes the element before it, is
    dropped at the root of a rooted path, and is kept at the start of a
    relative one. *)
Fixpoint cleanElements (rooted : bool) (out : list string) (elems : list string)
  : list string :=
  match elems with
  | [] => rev out
  | e :: rest =>
      if bool_decide (e = "" ∨ e = ".") then cleanElements rooted out rest
      else if bool_decide (e = "..") then
        match out with
        | top :: below =>
            if bool_decide (top = "..") then cleanElements rooted (e :: out) rest
            else cleanElements rooted below rest
        | [] =>
            if rooted then cleanElements rooted [] rest
            else cleanElements rooted [e] rest
        end
      else cleanElements rooted (e :: out) rest
  end.

Definition isRooted (path : string) : bool :=
  match path with
  | String c _ => bool_decide (c = "/"%char)
  | EmptyString => false
  end.

(** [filepath.Clean]. *)
Definition Clean (path : string) : string :=
  if bool_decide (path = "") then "."
  else
    let rooted := isRooted path in
    let out := (if rooted then "/" else "")
               +:+ GoStrings.Join (cleanElements rooted [] (elements path)) "/" in
    if bool_decide (out = "") then "." else out.

(** [filepath.Join]: leading empty elements are ignored, the rest is
    joined with the separator and cleaned; the result is empty when
    every element is. *)
Fixpoint Join (elem : list string) : string :=
  match elem with
  | [] => ""
  | e :: rest =>
      if bool_decide (e = "") then Join rest
      else Clean (GoStrings.Join elem "/")
  end.

Fixpoint dropSlashes (l : list ascii) : list ascii :=
  match l with
  | c :: r => if bool_decide (c = "/"%char) then dropSlashes r else l
  | [] => []
  end.

Fixpoint untilSlash (l : list ascii) : list ascii :=
  match l with
  | c :: r => if bool_decide (c = "/"%char) then [] else c :: untilSlash r
  | [] => []
  end.

(** [filepath.Base]: the last element of the path, trailing separators
    removed; ["."] for the empty path and ["/"] for one made of
    separators only. *)
Definition Base (path : string) : string :=
  if bool_decide (path = "") then "."
  else
    match untilSlash (dropSlashes (rev (bytes path))) with
    | [] => "/"
    | last => of_bytes (rev last)
    end.

End Filepath.

(** ** Packages [time] and [fmt] *)

(** A reading of the clock: the calendar fields that [Format] prints and
    the count that [UnixNano] returns. *)
Record Time := mkTime {
  year : N; month : N; day : N; hour : N; minute : N; second : N;
  UnixNano : Z
}.

Module GoTime.

Fixpoint zeros (n : nat) : string :=
  match n with
  | 0 => ""
  | S k => String "0" (zeros k)
  end.

(** [appendInt(b, x, width)] of package [time] for [x >= 0]: decimal,
    padded with zeros up to [width] digits. *)
Definition appendInt (x : N) (width : nat) : string :=
  let digits := NilZero.string_of_uint (N.to_uint x) in
  zeros (width - String.length digits) +:+ digits.

(** [t.Format("20060102-150405")]. *)
Definition Format (t : Time) : string :=
  appendInt (year t) 4 +:+ appendInt (month t) 2 +:+ appendInt (day t) 2
  +:+ "-" +:+ appendInt (hour t) 2 +:+ appendInt (minute t) 2
  +:+ appendInt (second t) 2.

End GoTime.

(** The verb [%d] of [fmt.Sprintf] at an integer. *)
Definition fmt_d (z : Z) : string := NilZero.string_of_int (Z.to_int z).

(** ** Data model *)

Definition uploadDir : string := "/tmp/babeldoc/uploads".
Definition outputDir : string := "/tmp/babeldoc/outputs".
Definition logsDir : string := "/tmp/babeldoc/logs".

(** The values the program gives to [Task.Status]. *)
Inductive TaskStatus := queued | running | success | failed.

#[global] Instance TaskStatus_eq_dec : EqDecision TaskStatus.
Proof. solve_decision. Defined.

(** A decoded [map[string]string], as [range] visits it. *)
Definition ParamsMap : Type := list (string * string).

(** [m[key]] with the comma-ok form: the value and whether it is there. *)
Fixpoint mapGet (m : ParamsMap) (key : string) : option string :=
  match m with
  | [] => None
  | (k, v) :: rest => if bool_decide (k = key) then Some v else mapGet rest key
  end.

(** [m[key] = value]. *)
Fixpoint mapSet (m : ParamsMap) (key value : string) : ParamsMap :=
  match m with
  | [] => [(key, value)]
  | (k, v) :: rest =>
      if bool_decide (k = key) then (k, value) :: rest
      else (k, v) :: mapSet rest key value
  end.

(** [type Task struct].  [Params] is the JSON text of a parameter map;
    [None] is the empty string. *)
Record Task := mkTask {
  ID : string;
  Filename : string;
  Status : TaskStatus;
  LangIn : string;
  LangOut : string;
  Pages : string;
  Params : option ParamsMap;
  CreatedAt : Time;
  StartedAt : option Time;
  CompletedAt : option Time;
  Error : string;
  OutputFile : string;
  OutputFiles : list string
}.

(** A row of the table [tasks] ([createTable]); [id] is the primary key,
    [filename], [status] and [created_at] are NOT NULL. *)
Record Row := mkRow {
  row_id : string;
  row_filename : string;
  row_status : TaskStatus;
  row_lang_in : option string;
  row_lang_out : option string;
  row_pages : option string;
  row_params : option ParamsMap;
  row_created_at : Time;
  row_started_at : option Time;
  row_completed_at : option Time;
  row_error : option string;
  row_output_file : option string;
  row_output_files : option (list string)
}.

(** The state of the server: the table, the channel [taskQueue] (oldest
    entry first) and the task the single worker is running, if any. *)
Record Server := mkServer {
  db : gmap string Row;
  taskQueue : list Task;
  current : option Task
}.

Definition initServer : Server := mkServer ∅ [] None.

(** *** SQL statements of the program *)

(** [INSERT INTO tasks (id, filename, status, lang_in, lang_out, pages,
    params, created_at) VALUES (...)]: fails on a primary key that is
    already there. *)
Definition sqlInsert (task : Task) (d : gmap string Row) : option (gmap string Row) :=
  match d !! ID task with
  | Some _ => None
  | None =>
      Some (<[ID task := mkRow (ID task) (Filename task) (Status task)
                (Some (LangIn task)) (Some (LangOut task)) (Some (Pages task))
                (Params task) (CreatedAt task) None None None None None]> d)
  end.

(** [UPDATE tasks SET status = ?, started_at = ? WHERE id = ?]. *)
Definition sqlSetStarted (id : string) (st : TaskStatus) (started : option Time)
    (d : gmap string Row) : gmap string Row :=
  alter (λ r, mkRow (row_id r) (row_filename r) st (row_lang_in r) (row_lang_out r)
                (row_pages r) (row_params r) (row_created_at r) started
                (row_completed_at r) (row_error r) (row_output_file r)
                (row_output_files r)) id d.

(** [UPDATE tasks SET status = ?, completed_at = ?, error = ? WHERE id = ?]. *)
Definition sqlSetFailed (id : string) (st : TaskStatus) (completed : option Time)
    (err : string) (d : gmap string Row) : gmap string Row :=
  alter (λ r, mkRow (row_id r) (row_filename r) st (row_lang_in r) (row_lang_out r)
                (row_pages r) (row_params r) (row_created_at r) (row_started_at r)
                completed (Some err) (row_output_file r) (row_output_files r)) id d.

(** [UPDATE tasks SET status = ?, completed_at = ?, output_file = ?,
    output_files = ? WHERE id = ?]. *)
Definition sqlSetSucceeded (id : string) (st : TaskStatus) (completed : option Time)
    (file : string) (files : list string) (d : gmap string Row) : gmap string Row :=
  alter (λ r, mkRow (row_id r) (row_filename r) st (row_lang_in r) (row_lang_out r)
                (row_pages r) (row_params r) (row_created_at r) (row_started_at r)
                completed (row_error r) (Some file) (Some files)) id d.

(** [ORDER BY created_at DESC]: [r1] may come before [r2]. *)
Definition createdDesc (r1 r2 : Row) : Prop :=
  (UnixNano (row_created_at r2) ≤ UnixNano (row_created_at r1))%Z.

#[global] Instance createdDesc_dec : RelDecision createdDesc.
Proof. intros r1 r2. unfold createdDesc. apply _. Defined.

(** [SELECT ... FROM tasks ORDER BY created_at DESC]. *)
Definition sqlSelectAll (d : gmap string Row) : list Row :=
  merge_sort createdDesc (map_to_list d).*2.

(** [rows.Scan] of a full row into a [Task], as [listTasksHandler] and
    [taskDetailHandler] do it: [lang_in], [lang_out] and [pages] are
    scanned into plain strings, which fails on NULL; the other nullable
    columns go through [sql.NullString] and [sql.NullTime]. *)
Definition scanTask (r : Row) : option Task :=
  match row_lang_in r, row_lang_out r, row_pages r with
  | Some li, Some lo, Some pg =>
      Some (mkTask (row_id r) (row_filename r) (row_status r) li lo pg
              (row_params r) (row_created_at r) (row_started_at r)
              (row_completed_at r) (default "" (row_error r))
              (default "" (row_output_file r)) (default [] (row_output_files r)))
  | _, _, _ => None
  end.

(** ** [submitTaskHandler] *)

(** What the handler reads of the request: the method, whether
    [ParseMultipartForm] succeeded, [header.Filename] of the part
    ["file"] when [FormFile] finds it, and [r.Form] as [range] visits it
    (one entry per key). *)
Record Request := mkRequest {
  Method : string;
  multipartOK : bool;
  FormFile : option string;
  Form : list (string * list string)
}.

(** What the surroundings answer during one call: the three readings of
    [time.Now()], whether [os.Create] and [io.Copy] succeed, and the text
    of the driver's error when the INSERT is refused. *)
Record SubmitIO := mkSubmitIO {
  nowStamp : Time;
  nowSuffix : Time;
  nowCreated : Time;
  createOK : bool;
  copyOK : bool;
  insertErrText : string
}.

Inductive FsOp :=
| FsCreate (path : string)
| FsRemove (path : string)
| FsRemoveAll (path : string).

Inductive Reply :=
| ReplyError (code : nat) (msg : string)
| ReplyAccepted (task_id : string)
| ReplyDeleted.

(** [r.FormValue(key)]. *)
Fixpoint FormValue (form : list (string * list string)) (key : string) : string :=
  match form with
  | [] => ""
  | (k, values) :: rest =>
      if bool_decide (k = key) then hd "" values else FormValue rest key
  end.

(** [time.Now().Format("20060102-150405")] and
    [fmt.Sprintf("%s_%d", timestamp, time.Now().UnixNano()%10000)]. *)
Definition genTimestamp (now : Time) : string := GoTime.Format now.

Definition genTaskID (timestamp : string) (now : Time) : string :=
  timestamp +:+ "_" +:+ fmt_d (Z.rem (UnixNano now) 10000).

(** [filepath.Join(uploadDir, fmt.Sprintf("%s_%s", timestamp, header.Filename))]. *)
Definition uploadPath (timestamp headerFilename : string) : string :=
  Filepath.Join [uploadDir; timestamp +:+ "_" +:+ headerFilename].

(** One iteration of the loop that collects the other parameters. *)
Definition collectParam (paramsMap : ParamsMap) (entry : string * list string) : ParamsMap :=
  let '(key, values) := entry in
  match values with
  | v0 :: _ =>
      if bool_decide (key ≠ "file" ∧ key ≠ "lang_in" ∧ key ≠ "lang_out" ∧ key ≠ "pages")
      then
        let value := GoStrings.TrimSpace v0 in
        if bool_decide (value ≠ "" ∧ value ≠ "false" ∧ value ≠ "off")
        then mapSet paramsMap key value
        else paramsMap
      else paramsMap
  | [] => paramsMap
  end.

Definition collectParams (form : list (string * list string)) : ParamsMap :=
  foldl collectParam [] form.

(** The task the handler builds. *)
Definition newTask (req : Request) (io : SubmitIO) (headerFilename : string) : Task :=
  let timestamp := genTimestamp (nowStamp io) in
  let langIn := FormValue (Form req) "lang_in" in
  let langOut := FormValue (Form req) "lang_out" in
  mkTask (genTaskID timestamp (nowSuffix io)) headerFilename queued
    (if bool_decide (langIn = "") then "en" else langIn)
    (if bool_decide (langOut = "") then "zh" else langOut)
    (FormValue (Form req) "pages")
    (Some (collectParams (Form req)))
    (nowCreated io) None None "" "" [].

Definition submitTaskHandler (req : Request) (io : SubmitIO) (s : Server)
  : Reply * list FsOp * Server :=
  if bool_decide (Method req ≠ "POST") then
    (ReplyError 405 "Method not allowed", [], s)
  else if negb (multipartOK req) then
    (ReplyError 400 "File too large", [], s)
  else
    match FormFile req with
    | None => (ReplyError 400 "Error retrieving file", [], s)
    | Some headerFilename =>
        if negb (GoStrings.HasSuffix (GoStrings.ToLower headerFilename) ".pdf") then
          (ReplyError 400 "Only PDF files are allowed", [], s)
        else
          let inputPath := uploadPath (genTimestamp (nowStamp io)) headerFilename in
          if negb (createOK io) then
            (ReplyError 500 "Error creating file", [], s)
          else if negb (copyOK io) then
            (ReplyError 500 "Error saving file", [FsCreate inputPath; FsRemove inputPath], s)
          else
            let task := newTask req io headerFilename in
            match sqlInsert task (db s) with
            | None =>
                (ReplyError 500 ("Error saving task: " +:+ insertErrText io),
                 [FsCreate inputPath; FsRemove inputPath], s)
            | Some d =>
                (ReplyAccepted (ID task), [FsCreate inputPath],
                 mkServer d (taskQueue s ++ [task]) (current s))
            end
    end.

(** ** [listTasksHandler]: rows that fail to scan are skipped. *)
Definition listTasksHandler (d : gmap string Row) : list Task :=
  omap scanTask (sqlSelectAll d).

(** ** [downloadTaskHandler] *)

Inductive DownloadReply :=
| HttpError (code : nat) (msg : string)
| ServeFile (filePath : string) (contentDisposition : string).

(** [exists_] answers [os.Stat]: whether a file is at the path. *)
Definition downloadTaskHandler (taskID fileName : string) (exists_ : string → bool)
    (d : gmap string Row) : DownloadReply :=
  if bool_decide (taskID = "") then HttpError 400 "Invalid task ID"
  else if bool_decide (fileName ≠ "") then
    match d !! taskID with
    | None => HttpError 404 "Task not found"
    | Some r =>
        let found :=
          match row_output_files r with
          | Some outputFiles => bool_decide (fileName ∈ outputFiles)
          | None => true
          end in
        if negb found then HttpError 404 "File not found"
        else
          let filePath := Filepath.Join [outputDir; fileName] in
          if negb (exists_ filePath) then HttpError 404 "File not found"
          else ServeFile filePath ("attachment; filename=" +:+ Filepath.Base fileName)
    end
  else
    match d !! taskID with
    | None => HttpError 404 "File not found"
    | Some r =>
        match row_output_file r with
        | None => HttpError 404 "File not found"
        | Some outputFile =>
            if bool_decide (outputFile = "") then HttpError 404 "File not found"
            else
              let filePath := Filepath.Join [outputDir; outputFile] in
              if negb (exists_ filePath) then HttpError 404 "File not found"
              else ServeFile filePath ("attachment; filename=" +:+ Filepath.Base outputFile)
        end
    end.

(** ** [deleteTaskHandler] *)

Definition deleteTaskHandler (method taskID : string) (d : gmap string Row)
  : Reply * list FsOp * gmap string Row :=
  if bool_decide (method ≠ "DELETE") then (ReplyError 405 "Method not allowed", [], d)
  else if bool_decide (taskID = "") then (ReplyError 400 "Invalid task ID", [], d)
  else
    match d !! taskID with
    | None => (ReplyError 404 "Task not found", [], d)
    | Some r =>
        let timestamp := hd "" (GoStrings.Split taskID "_") in
        let ops :=
          [FsRemove (Filepath.Join [uploadDir; timestamp +:+ "_" +:+ row_filename r])]
          ++ match row_output_file r with
             | Some f => if bool_decide (f = "") then []
                         else [FsRemove (Filepath.Join [outputDir; f])]
             | None => []
             end
          ++ ((λ f, FsRemove (Filepath.Join [outputDir; f])) <$> default [] (row_output_files r))
          ++ [FsRemoveAll (Filepath.Join [outputDir; taskID]);
              FsRemove (Filepath.Join [logsDir; taskID +:+ ".log"])] in
        (ReplyDeleted, ops, delete taskID d)
    end.

(** ** The worker: [processTask] and [failTask] *)

(** What the surroundings answer while one task is processed: whether
    the log file can be created, the environment, the error of
    [cmd.Start] and of [cmd.Wait] if any, the lines the child writes
    ([true] marks standard error) in the order the two readers append
    them (a line that a reader appends after [cmd.Wait] has returned is
    placed with the others), the result of [filepath.Glob] ([None] is an
    error), the error of [os.Rename] for a source path if any, and the
    reading of [time.Now()] when the task ends. *)
Record World := mkWorld {
  logCreateOK : bool;
  Getenv : string → string;
  startErr : option string;
  output : list (bool * string);
  waitErr : option string;
  globResult : option (list string);
  renameErr : string → option string;
  doneAt : Time
}.

(** What processing leaves behind: the task, the table, the lines
    written to the task's log file in order, and the command on which
    [cmd.Start] was called (argument list and the entries added to the
    inherited environment), if the run got that far. *)
Record Outcome := mkOutcome {
  out_task : Task;
  out_db : gmap string Row;
  out_log : list string;
  out_cmd : option (list string * list string)
}.

Definition LF : string := String (ascii_of_nat 10) "".

Definition failTask (now : Time) (task : Task) (errorMsg : string) (d : gmap string Row)
  : Task * gmap string Row :=
  let task' := mkTask (ID task) (Filename task) failed (LangIn task) (LangOut task)
                 (Pages task) (Params task) (CreatedAt task) (StartedAt task)
                 (Some now) errorMsg (OutputFile task) (OutputFiles task) in
  (task', sqlSetFailed (ID task') (Status task') (CompletedAt task') (Error task') d).

(** The head of [processTask]: the task becomes running. *)
Definition beginTask (now : Time) (task : Task) (d : gmap string Row)
  : Task * gmap string Row :=
  let task' := mkTask (ID task) (Filename task) running (LangIn task) (LangOut task)
                 (Pages task) (Params task) (CreatedAt task) (Some now)
                 (CompletedAt task) (Error task) (OutputFile task) (OutputFiles task) in
  (task', sqlSetStarted (ID task') (Status task') (StartedAt task') d).

(** [filepath.Join(uploadDir, strings.Split(task.ID, "_")[0]+"_"+task.Filename)]. *)
Definition workerInputPath (task : Task) : string :=
  let timestamp := hd "" (GoStrings.Split (ID task) "_") in
  Filepath.Join [uploadDir; timestamp +:+ "_" +:+ Filename task].

Definition baseArgs (task : Task) : list string :=
  ["--files"; workerInputPath task;
   "--lang-in"; LangIn task;
   "--lang-out"; LangOut task;
   "--output"; Filepath.Join [outputDir; ID task]]
  ++ (if bool_decide (Pages task ≠ "") then ["--pages"; Pages task] else []).

(** The variables of the loop over the parameter map. *)
Record ParamScan := mkParamScan {
  hasAPIKey : bool;
  hasModel : bool;
  hasBaseURL : bool;
  args : list string
}.

(** What one entry appends to [args]. *)
Definition paramArgs (key value : string) : list string :=
  let value := GoStrings.TrimSpace value in
  if bool_decide (value ≠ "") then
    if bool_decide (value = "true" ∨ value = "on") then ["--" +:+ key]
    else if bool_decide (value ≠ "false" ∧ value ≠ "off") then ["--" +:+ key; value]
    else []
  else [].

(** One iteration of the loop. *)
Definition paramStep (sc : ParamScan) (entry : string * string) : ParamScan :=
  let '(key, value) := entry in
  let trimmed := GoStrings.TrimSpace value in
  mkParamScan
    (if bool_decide (key = "openai-api-key" ∧ trimmed ≠ "") then true else hasAPIKey sc)
    (if bool_decide (key = "openai-model" ∧ trimmed ≠ "") then true else hasModel sc)
    (if bool_decide (key = "openai-base-url" ∧ trimmed ≠ "") then true else hasBaseURL sc)
    (args sc ++ paramArgs key value).

Definition scanParams (task : Task) (args0 : list string) : ParamScan :=
  match Params task with
  | Some paramsMap => foldl paramStep (mkParamScan false false false args0) paramsMap
  | None => mkParamScan false false false args0
  end.

Definition msgEnvConfig : string := "==> 使用环境变量配置 OpenAI" +:+ LF.
Definition msgFormConfig : string := "==> 使用前端传递的 OpenAI 配置" +:+ LF.
Definition msgNoOpenAI : string :=
  "ERROR: 未配置 OpenAI，请在表单中填写 API Key、模型和 Base URL，或设置环境变量 OPENAI_API_KEY" +:+ LF.
Definition errNoAPIKey : string := "未配置 OpenAI API Key".
Definition errNoLogFile : string := "无法创建日志文件".
Definition errNoOutput : string := "未找到输出文件".
Definition errNoSavedOutput : string := "无法保存输出文件".

(** The arguments taken from the environment when it has a key. *)
Definition envOpenAIArgs (w : World) : list string :=
  let envModel := Getenv w "OPENAI_MODEL" in
  let envBaseURL := Getenv w "OPENAI_BASE_URL" in
  ["--openai-api-key"; Getenv w "OPENAI_API_KEY"]
  ++ (if bool_decide (envModel ≠ "") then ["--openai-model"; envModel]
      else ["--openai-model"; "gpt-4o-mini"])
  ++ (if bool_decide (envBaseURL ≠ "") then ["--openai-base-url"; envBaseURL] else []).

(** The choice between the form's OpenAI settings and the environment:
    the log line, and the arguments unless the key is missing. *)
Definition resolveOpenAI (w : World) (sc : ParamScan) : string * option (list string) :=
  if negb (hasAPIKey sc) && negb (hasModel sc) && negb (hasBaseURL sc) then
    if bool_decide (Getenv w "OPENAI_API_KEY" ≠ "") then
      (msgEnvConfig, Some (args sc ++ envOpenAIArgs w))
    else (msgNoOpenAI, None)
  else (msgFormConfig, Some (args sc)).

(** The entries appended to [cmd.Env] after [os.Environ()]. *)
Definition childEnv (task : Task) : list string :=
  match Params task with
  | Some paramsMap =>
      match mapGet paramsMap "openai-api-key" with
      | Some apiKey => if bool_decide (apiKey ≠ "") then ["OPENAI_API_KEY=" +:+ apiKey] else []
      | None => []
      end
      ++ match mapGet paramsMap "openai-base-url" with
         | Some baseURL =>
             if bool_decide (baseURL ≠ "") then ["OPENAI_BASE_URL=" +:+ baseURL] else []
         | None => []
         end
  | None => []
  end.

Definition cmdLine (args : list string) : string :=
  "==> 执行命令: babeldoc " +:+ GoStrings.Join args " " +:+ LF.

Definition outputLine (l : bool * string) : string :=
  if l.1 then "[STDERR] " +:+ l.2 +:+ LF else l.2 +:+ LF.

(** The loop that moves the produced files to the output directory: the
    names that were moved and the lines logged. *)
Fixpoint moveOutputs (w : World) (taskID : string) (files : list string)
  : list string * list string :=
  match files with
  | [] => ([], [])
  | file :: rest =>
      let outputFilename := taskID +:+ "_" +:+ Filepath.Base file in
      let '(names, lines) := moveOutputs w taskID rest in
      match renameErr w file with
      | Some err =>
          (names, ("WARNING: 无法移动文件 " +:+ file +:+ ": " +:+ err +:+ LF) :: lines)
      | None =>
          (outputFilename :: names, ("==> 生成文件: " +:+ outputFilename +:+ LF) :: lines)
      end
  end.

(** The three header lines of a task's log. *)
Definition logHeader (task : Task) : list string :=
  ["==> 开始翻译任务 " +:+ ID task +:+ LF;
   "==> 文件名: " +:+ Filename task +:+ LF;
   "==> 语言: " +:+ LangIn task +:+ " -> " +:+ LangOut task +:+ LF].

Definition failWith (w : World) (task : Task) (errorMsg : string) (d : gmap string Row)
    (log : list string) (cmd : option (list string * list string)) : Outcome :=
  let '(task', d') := failTask (doneAt w) task errorMsg d in
  mkOutcome task' d' log cmd.

(** The rest of [processTask], from the creation of the log file on. *)
Definition runTask (w : World) (task : Task) (d : gmap string Row) : Outcome :=
  if negb (logCreateOK w) then failWith w task errNoLogFile d [] None
  else
    let log1 := logHeader task in
    let sc := scanParams task (baseArgs task) in
    match resolveOpenAI w sc with
    | (line, None) => failWith w task errNoAPIKey d (log1 ++ [line]) None
    | (line, Some args1) =>
        let args := args1 ++ ["--openai"] in
        let log2 := log1 ++ [line; cmdLine args] in
        let cmd := Some (args, childEnv task) in
        match startErr w with
        | Some err =>
            failWith w task err d (log2 ++ ["ERROR: 无法启动命令: " +:+ err +:+ LF]) cmd
        | None =>
            let log3 := log2 ++ (outputLine <$> output w) in
            match waitErr w with
            | Some err =>
                failWith w task err d
                  (log3 ++ [LF +:+ "ERROR: 命令执行失败: " +:+ err +:+ LF]) cmd
            | None =>
                match globResult w with
                | None | Some [] =>
                    failWith w task errNoOutput d
                      (log3 ++ ["ERROR: " +:+ errNoOutput +:+ LF]) cmd
                | Some files =>
                    let '(outputFilenames, lines) := moveOutputs w (ID task) files in
                    match outputFilenames with
                    | [] =>
                        failWith w task errNoSavedOutput d
                          (log3 ++ lines ++ ["ERROR: " +:+ errNoSavedOutput +:+ LF]) cmd
                    | first :: _ =>
                        let task' :=
                          mkTask (ID task) (Filename task) success (LangIn task)
                            (LangOut task) (Pages task) (Params task) (CreatedAt task)
                            (StartedAt task) (Some (doneAt w)) (Error task)
                            first outputFilenames in
                        mkOutcome task'
                          (sqlSetSucceeded (ID task') (Status task') (CompletedAt task')
                             (OutputFile task') (OutputFiles task') d)
                          (log3 ++ lines ++ [LF +:+ "==> 任务完成！" +:+ LF]) cmd
                    end
                end
            end
        end
    end.

Definition processTask (now : Time) (w : World) (task : Task) (d : gmap string Row)
  : Outcome :=
  let '(task', d') := beginTask now task d in
  runTask w task' d'.

(** ** The server as a transition system

    The handlers run one at a time against the table; the single worker
    ([taskWorker], [workerCount = 1]) receives the oldest queued task,
    marks it running, and later finishes it.  A restart keeps the table
    and loses the channel and the worker. *)

Inductive Event :=
| EvSubmit (req : Request) (io : SubmitIO)
| EvDelete (method taskID : string)
| EvDequeue (now : Time)
| EvFinish (w : World)
| EvRestart.

Definition step (s : Server) (e : Event) : Server :=
  match e with
  | EvSubmit req io => (submitTaskHandler req io s).2
  | EvDelete method taskID =>
      mkServer (deleteTaskHandler method taskID (db s)).2 (taskQueue s) (current s)
  | EvDequeue now =>
      match current s, taskQueue s with
      | None, task :: rest =>
          let '(task', d) := beginTask now task (db s) in
          mkServer d rest (Some task')
      | _, _ => s
      end
  | EvFinish w =>
      match current s with
      | Some task => mkServer (out_db (runTask w task (db s))) (taskQueue s) None
      | None => s
      end
  | EvRestart => mkServer (db s) [] None
  end.

Definition run (s : Server) (trace : list Event) : Server := foldl step s trace.

(** The identifier a submission generates, once the request has passed
    the checks that come before the identifier is made. *)
Definition generatedID (req : Request) (io : SubmitIO) : option string :=
  if bool_decide (Method req ≠ "POST") then None
  else if negb (multipartOK req) then None
  else
    match FormFile req with
    | None => None
    | Some headerFilename =>
        if negb (GoStrings.HasSuffix (GoStrings.ToLower headerFilename) ".pdf") then None
        else Some (genTaskID (genTimestamp (nowStamp io)) (nowSuffix io))
    end.

Definition eventID (e : Event) : option string :=
  match e with
  | EvSubmit req io => generatedID req io
  | _ => None
  end.

(** ** Properties of a job record *)

Definition terminal (st : TaskStatus) : Prop := st = success ∨ st = failed.

(** Completion time and outputs agree with the status. *)
Definition recordInv (t : Task) : Prop :=
  (is_Some (CompletedAt t) ↔ terminal (Status t))
  ∧ (OutputFiles t ≠ [] ↔ Status t = success).

(** No entry of a stored parameter map is empty, ["false"] or ["off"]
    once trimmed. *)
Definition paramKept (value : string) : Prop :=
  GoStrings.TrimSpace value ≠ "" ∧ GoStrings.TrimSpace value ≠ "false"
  ∧ GoStrings.TrimSpace value ≠ "off".

Definition paramsKept (p : option ParamsMap) : Prop :=
  ∀ m key value, p = Some m → (key, value) ∈ m → paramKept value.

(** The job's parameter map gives one of the three OpenAI settings a
    value that is not empty once trimmed. *)
Definition openAIKeys : list string := ["openai-api-key"; "openai-model"; "openai-base-url"].

Definition suppliesOpenAI (task : Task) : Prop :=
  ∃ m key value, Params task = Some m ∧ (key, value) ∈ m
                 ∧ key ∈ openAIKeys ∧ GoStrings.TrimSpace value ≠ "".

(** One of the three flags of the loop is up. *)
Definition anyFlag (sc : ParamScan) : bool :=
  hasAPIKey sc || hasModel sc || hasBaseURL sc.

(** What the loop over a parameter map appends in all. *)
Definition paramsArgs (m : ParamsMap) : list string :=
  m ≫= (λ entry, paramArgs entry.1 entry.2).

(** A row as the INSERT leaves it, and as the worker's first UPDATE
    leaves it: not completed, no outputs. *)
Definition rowOpen (st : TaskStatus) (r : Row) : Prop :=
  row_status r = st ∧ row_completed_at r = None ∧ row_output_files r = None.

Definition taskOpen (st : TaskStatus) (t : Task) : Prop :=
  Status t = st ∧ CompletedAt t = None ∧ OutputFiles t = [].

(** [recordInv] on the columns of a row. *)
Definition rowInv (r : Row) : Prop :=
  (is_Some (row_completed_at r) ↔ terminal (row_status r))
  ∧ (default [] (row_output_files r) ≠ [] ↔ row_status r = success).

(** The columns that [rows.Scan] reads into plain strings are there. *)
Definition rowScans (r : Row) : Prop :=
  is_Some (row_lang_in r) ∧ is_Some (row_lang_out r) ∧ is_Some (row_pages r).

(** The order of the listing, on tasks. *)
Definition newerFirst (t1 t2 : Task) : Prop :=
  (UnixNano (CreatedAt t2) ≤ UnixNano (CreatedAt t1))%Z.

(** A decimal digit. *)
Definition isDigit (c : ascii) : Prop :=
  c ∈ ["0"; "1"; "2"; "3"; "4"; "5"; "6"; "7"; "8"; "9"]%char.

(** The three UPDATE statements leave the identifying and the submitted
    columns alone. *)
Definition keepsSubmitted (f : Row → Row) : Prop :=
  ∀ r, row_id (f r) = row_id r
       ∧ row_lang_in (f r) = row_lang_in r
       ∧ row_lang_out (f r) = row_lang_out r
       ∧ row_pages (f r) = row_pages r
       ∧ row_params (f r) = row_params r
       ∧ row_created_at (f r) = row_created_at r.

(** A row is stored under its own identifier, scans, and has a filtered
    parameter map. *)
Definition rowSound (id : string) (r : Row) : Prop :=
  row_id r = id ∧ rowScans r ∧ is_Some (row_params r) ∧ paramsKept (row_params r).

Definition tableSound (d : gmap string Row) : Prop :=
  ∀ id r, d !! id = Some r → rowSound id r.

(** What holds of a server whose identifiers were all generated once:
    rows satisfy [rowInv]; a queued task is untouched and so is its row
    if it is still there; the running task and its row are running and
    open; no two of these tasks share an identifier.  [used] lists the
    identifiers generated so far. *)
Definition lifecycleInv (used : list string) (s : Server) : Prop :=
  (∀ id r, db s !! id = Some r → rowInv r)
  ∧ (∀ t, t ∈ taskQueue s →
       taskOpen queued t ∧ ID t ∈ used ∧ ∀ r, db s !! ID t = Some r → rowOpen queued r)
  ∧ NoDup (ID <$> taskQueue s)
  ∧ (∀ t, current s = Some t →
       taskOpen running t ∧ ID t ∈ used ∧ (ID t ∉ ID <$> taskQueue s)
       ∧ ∀ r, db s !! ID t = Some r → rowOpen running r).

(** The tasks the server holds in memory are as the handler and the
    head of [processTask] leave them. *)
Definition tasksOpen (s : Server) : Prop :=
  (∀ t, t ∈ taskQueue s → taskOpen queued t)
  ∧ (∀ t, current s = Some t → taskOpen running t).


(** ** [taskDetailHandler] *)

(** The answer of the detail endpoint: an error with a fixed text, the
    500 that carries the driver's text when [Scan] fails, or the task. *)
Inductive DetailReply :=
| DetailError (code : nat) (msg : string)
| DetailScanError
| DetailTask (task : Task).

Definition taskDetailHandler (taskID : string) (d : gmap string Row) : DetailReply :=
  if bool_decide (taskID = "") then DetailError 400 "Invalid task ID"
  else
    match d !! taskID with
    | None => DetailError 404 "Task not found"
    | Some r =>
        match scanTask r with
        | None => DetailScanError
        | Some task => DetailTask task
        end
    end.

(** ** Paths *)

(** [filepath.Join(logsDir, taskID+".log")], the log file of a job. *)
Definition logPath (taskID : string) : string :=
  Filepath.Join [logsDir; taskID +:+ ".log"].

(** ** [taskWorker] *)

(** [for task := range taskQueue { processTask(task) }] for as long as
    there are answers of the surroundings: one reading of the clock and
    one [World] per task.  On an empty channel the worker waits. *)
Fixpoint taskWorker (answers : list (Time * World)) (s : Server) : Server :=
  match answers with
  | [] => s
  | (now, w) :: more =>
      match taskQueue s with
      | [] => s
      | task :: rest =>
          taskWorker more (mkServer (out_db (processTask now w task (db s))) rest None)
      end
  end.

(** The name under which a produced file is kept, and whether the
    rename of a produced file succeeds. *)
Definition finalName (taskID file : string) : string :=
  taskID +:+ "_" +:+ Filepath.Base file.

Definition renamed (w : World) (file : string) : Prop := renameErr w file = None.

#[global] Instance renamed_dec w file : Decision (renamed w file).
Proof. unfold renamed. apply _. Defined.


(** What the submission handler guarantees of an entry of the parameter
    map it builds from [form]. *)
Definition reservedKeys : list string := ["file"; "lang_in"; "lang_out"; "pages"].

Definition storedEntry (form : list (string * list string)) (key value : string) : Prop :=
  (key ∉ reservedKeys)
  ∧ GoStrings.TrimSpace value = value
  ∧ (value ∉ [""; "false"; "off"])
  ∧ ∃ v0 rest, (key, v0 :: rest) ∈ form ∧ value = GoStrings.TrimSpace v0.

(** ** Sample inputs *)

Module Sample.

(** 2024-01-01 12:00:00 UTC and [nanos] nanoseconds (less than a
    second in the samples). *)
Definition noon (nanos : Z) : Time :=
  mkTime 2024 1 1 12 0 0 (1704110400000000000 + nanos).

Definition io (nanos : Z) : SubmitIO :=
  mkSubmitIO (noon nanos) (noon (nanos + 300)) (noon (nanos + 900)) true true
    "UNIQUE constraint failed: tasks.id".

Definition request (name : string) (form : list (string * list string)) : Request :=
  mkRequest "POST" true (Some name) form.

Definition reqOther : Request := request "other.pdf" [("lang_out", ["ja"])].

Definition reqPlain : Request := request "report.pdf" [("lang_in", ["en"]); ("lang_out", ["zh"])].

Definition reqModelOnly : Request :=
  request "report.pdf" [("lang_in", ["en"]); ("openai-model", ["gpt-4o"])].

Definition reqOpenAIFlag : Request :=
  request "report.pdf" [("openai", ["true"]); ("openai-api-key", ["sk-form"])].

Definition reqMixed : Request :=
  request "report.pdf"
    [("lang_in", ["en"]); ("watermark", [" off "]); ("debug", ["true"]);
     ("qps", [" 4 "]); ("empty", ["  "]); ("pages", ["1-3"])].

Definition noEnv : string → string := λ _, "".
Definition envKey : string → string :=
  λ name, if bool_decide (name = "OPENAI_API_KEY") then "sk-secret" else "".

(** The child runs, exits with status zero and leaves [files]. *)
Definition world (env : string → string) (files : list string) (nanos : Z) : World :=
  mkWorld true env None [(false, "translating"); (true, "warning: slow")] None
    (Some files) (λ _, None) (noon nanos).

(** 2024-01-01 12:01:35 UTC and the second after. *)
Definition later : Time := mkTime 2024 1 1 12 1 35 1704110495000000000.
Definition laterStill : Time := mkTime 2024 1 1 12 1 36 1704110496000000000.

Definition producedFile : string :=
  "/tmp/babeldoc/outputs/20240101-120000_305/report.zh.mono.pdf".

(** The child runs for a minute and a half and leaves one file. *)
Definition worldSlow : World :=
  mkWorld true envKey None [(false, "translating")] None (Some [producedFile])
    (λ _, None) later.

(** The child exits with a non-zero status after a minute and a half. *)
Definition worldFailing : World :=
  mkWorld true envKey None [(true, "error: cannot open input")]
    (Some "exit status 1") (Some []) (λ _, None) later.

(** [reqPlain], submitted at noon, as [worldSlow] leaves it. *)
Definition finishedTask : Task :=
  mkTask "20240101-120000_305" "report.pdf" success "en" "zh" "" (Some [])
    (noon 905) (Some (noon 2000)) (Some later) ""
    "20240101-120000_305_report.zh.mono.pdf"
    ["20240101-120000_305_report.zh.mono.pdf"].

Definition taskOf (req : Request) (nanos : Z) : Task :=
  newTask req (io nanos) (default "" (FormFile req)).

(** The server after one submission to an empty one. *)
Definition submitted (req : Request) (nanos : Z) : Server :=
  (submitTaskHandler req (io nanos) initServer).2.

(** The arguments for [reqMixed] when the key comes from [envKey]. *)
Definition argsMixed : list string :=
  ["--files"; "/tmp/babeldoc/uploads/20240101-120000_report.pdf";
   "--lang-in"; "en"; "--lang-out"; "zh";
   "--output"; "/tmp/babeldoc/outputs/20240101-120000_305"; "--pages"; "1-3";
   "--debug"; "--qps"; "4";
   "--openai-api-key"; "sk-secret"; "--openai-model"; "gpt-4o-mini"; "--openai"].

(** The arguments for [reqPlain] when the key comes from [envKey]. *)
Definition argsFromEnv : list string :=
  ["--files"; "/tmp/babeldoc/uploads/20240101-120000_report.pdf";
   "--lang-in"; "en"; "--lang-out"; "zh";
   "--output"; "/tmp/babeldoc/outputs/20240101-120000_305";
   "--openai-api-key"; "sk-secret"; "--openai-model"; "gpt-4o-mini"; "--openai"].

(** A text file sent as the part ["file"]. *)
Definition reqText : Request := request "notes.txt" [("lang_in", ["en"])].

(** A form with values that need trimming and values that are dropped. *)
Definition formMixed : list (string * list string) :=
  [("lang_in", ["en"]); ("watermark", [" off "]); ("debug", ["true"]);
   ("qps", [" 4 "]); ("empty", ["  "]); ("pages", ["1-3"])].

(** The child leaves two files; the first cannot be moved. *)
Definition worldPartial : World :=
  mkWorld true envKey None [] None
    (Some ["/tmp/babeldoc/outputs/20240101-120000_305/report.zh.mono.pdf";
           "/tmp/babeldoc/outputs/20240101-120000_305/report.zh.dual.pdf"])
    (λ file, if bool_decide
                  (file = "/tmp/babeldoc/outputs/20240101-120000_305/report.zh.mono.pdf")
             then Some "permission denied" else None)
    later.

End Sample.

(** * Properties *)

(** ** Strings *)

Lemma bytes_of_bytes l : bytes (of_bytes l) = l.
Proof. apply list_ascii_of_string_of_list_ascii. Qed.

Lemma of_bytes_bytes s : of_bytes (bytes s) = s.
Proof. apply string_of_list_ascii_of_string. Qed.

Lemma string_app_cons c (s t : string) : String c s +:+ t = String c (s +:+ t).
Proof. reflexivity. Qed.

Lemma bytes_app s t : bytes (s +:+ t) = bytes s ++ bytes t.
Proof.
  induction s as [|a s IH]; [done|].
  rewrite string_app_cons. simpl. by rewrite IH.
Qed.

Lemma bytes_inj s t : bytes s = bytes t → s = t.
Proof. intros H. rewrite <- (of_bytes_bytes s), <- (of_bytes_bytes t). by rewrite H. Qed.

Lemma string_app_assoc (a b c : string) : (a +:+ b) +:+ c = a +:+ (b +:+ c).
Proof.
  induction a as [|x a IH]; [done|].
  rewrite !string_app_cons. by rewrite IH.
Qed.

Lemma string_app_nil_r (a : string) : a +:+ "" = a.
Proof.
  induction a as [|x a IH]; [done|].
  rewrite string_app_cons. by rewrite IH.
Qed.

Lemma Substring_refl s : Substring s s.
Proof. exists "", "". by rewrite string_app_nil_r. Qed.

Lemma Substring_app_l s t u : Substring s t → Substring s (u +:+ t).
Proof.
  intros (a & b & ->). exists (u +:+ a), b. by rewrite string_app_assoc.
Qed.

Lemma Substring_app_r s t u : Substring s t → Substring s (t +:+ u).
Proof.
  intros (a & b & ->). exists a, (b +:+ u). by rewrite !string_app_assoc.
Qed.

(** An element of a joined list occurs in the joined text. *)
Lemma Join_Substring (x : string) (elems : list string) (sep : string) :
  x ∈ elems → Substring x (GoStrings.Join elems sep).
Proof.
  induction elems as [|e rest IH]; [by intros ?%elem_of_nil|].
  intros [->|Hin]%elem_of_cons.
  - destruct rest as [|e' rest']; simpl; [apply Substring_refl|].
    apply Substring_app_r, Substring_refl.
  - destruct rest as [|e' rest']; [by apply elem_of_nil in Hin|].
    change (GoStrings.Join (e :: e' :: rest') sep)
      with (e +:+ sep +:+ GoStrings.Join (e' :: rest') sep).
    apply Substring_app_l, Substring_app_l. by apply IH.
Qed.

(** *** [Split] *)

Lemma Split_nonempty s sep : GoStrings.Split s sep ≠ [].
Proof.
  destruct s as [|c r]; simpl; [done|].
  case_bool_decide; [done|]. by destruct (GoStrings.Split r sep).
Qed.

(** The first field of [t ++ sep ++ r] is [t] when [sep] does not occur
    in [t]. *)
Lemma Split_head (t r : string) (sep : ascii) :
  Forall (λ c, c ≠ sep) (bytes t) →
  hd "" (GoStrings.Split (t +:+ String sep r) sep) = t.
Proof.
  induction t as [|c t IH]; intros Hall.
  - simpl. change ("" +:+ String sep r) with (String sep r). simpl.
    by rewrite bool_decide_eq_true_2.
  - simpl in Hall. apply Forall_cons in Hall as [Hc Ht].
    rewrite string_app_cons. simpl.
    rewrite bool_decide_eq_false_2 by done.
    specialize (IH Ht).
    destruct (GoStrings.Split (t +:+ String sep r) sep) as [|h tl] eqn:E.
    + by apply Split_nonempty in E.
    + simpl in *. by rewrite IH.
Qed.

(** *** Decimal printing *)

Lemma digit_not_underscore c : isDigit c → c ≠ "_"%char.
Proof.
  unfold isDigit. intros Hin ->.
  repeat (apply elem_of_cons in Hin as [Hin|Hin]; [discriminate|]).
  by apply elem_of_nil in Hin.
Qed.

Lemma string_of_uint_digits d : Forall isDigit (bytes (NilEmpty.string_of_uint d)).
Proof.
  induction d; simpl; constructor; try done; unfold isDigit; set_solver.
Qed.

Lemma NilZero_string_of_uint_digits d : Forall isDigit (bytes (NilZero.string_of_uint d)).
Proof.
  destruct d; try apply string_of_uint_digits.
  simpl. constructor; [|constructor].
  unfold isDigit. set_solver.
Qed.

Lemma zeros_digits n : Forall isDigit (bytes (GoTime.zeros n)).
Proof.
  induction n; simpl; constructor; [|done].
  unfold isDigit. set_solver.
Qed.

Lemma appendInt_digits x width : Forall isDigit (bytes (GoTime.appendInt x width)).
Proof.
  unfold GoTime.appendInt. rewrite bytes_app. apply Forall_app. split.
  - apply zeros_digits.
  - apply NilZero_string_of_uint_digits.
Qed.

Lemma appendInt_no_underscore x width :
  Forall (λ c, c ≠ "_"%char) (bytes (GoTime.appendInt x width)).
Proof.
  eapply Forall_impl; [apply appendInt_digits|]. apply digit_not_underscore.
Qed.

(** The timestamp of an identifier has no underscore. *)
Lemma Format_no_underscore t : Forall (λ c, c ≠ "_"%char) (bytes (GoTime.Format t)).
Proof.
  unfold GoTime.Format. rewrite !bytes_app.
  repeat (apply Forall_app; split); try apply appendInt_no_underscore.
  simpl. constructor; [done|constructor].
Qed.

Lemma fmt_d_inj z1 z2 : fmt_d z1 = fmt_d z2 → z1 = z2.
Proof.
  unfold fmt_d. intros H. apply to_int_inj.
  assert (Hn : ∀ z, Z.to_int z ≠ Decimal.Pos Decimal.Nil ∧ Z.to_int z ≠ Decimal.Neg Decimal.Nil).
  { intros [|p|p]; simpl; split; try discriminate;
      intros [=E]; by apply DecimalPos.Unsigned.to_uint_nonnil in E. }
  pose proof (NilZero.isi (Z.to_int z1) (proj1 (Hn z1)) (proj2 (Hn z1))) as H1.
  pose proof (NilZero.isi (Z.to_int z2) (proj1 (Hn z2)) (proj2 (Hn z2))) as H2.
  rewrite H in H1. rewrite H1 in H2. by injection H2.
Qed.

(** *** [TrimSpace] *)

Section strip.
Variable lead : list ascii → nat.
Hypothesis lead_le : ∀ l, lead l ≤ length l.

Lemma strip_suffix fuel l : ∃ p, l = p ++ GoStrings.strip lead fuel l.
Proof.
  revert l. induction fuel as [|fuel IH]; intros l; simpl; [by exists []|].
  destruct (lead l) as [|n] eqn:E; [by exists []|].
  destruct (IH (drop (S n) l)) as [p Hp].
  exists (take (S n) l ++ p).
  by rewrite <- app_assoc, <- Hp, take_drop.
Qed.

Lemma strip_done fuel l : length l ≤ fuel → lead (GoStrings.strip lead fuel l) = 0.
Proof.
  revert l. induction fuel as [|fuel IH]; intros l Hlen; simpl.
  - pose proof (lead_le l). lia.
  - destruct (lead l) as [|n] eqn:E; [done|].
    apply IH. rewrite length_drop. pose proof (lead_le l). lia.
Qed.

Lemma strip_fixed fuel l : lead l = 0 → GoStrings.strip lead fuel l = l.
Proof. intros H. destruct fuel; simpl; [done|]. by rewrite H. Qed.
End strip.

Lemma leadSpace_le l : GoStrings.leadSpace l ≤ length l.
Proof.
  destruct l as [|a [|b [|c l]]]; simpl; repeat case_match; lia.
Qed.

Lemma tailSpace_le l : GoStrings.tailSpace l ≤ length l.
Proof.
  destruct l as [|a [|b [|c l]]]; simpl; repeat case_match; lia.
Qed.

(** A rune at the head of a prefix is at the head of the whole. *)
Lemma leadSpace_prefix p q : GoStrings.leadSpace (p ++ q) = 0 → GoStrings.leadSpace p = 0.
Proof.
  destruct p as [|a [|b [|c p]]]; simpl; repeat case_match; done.
Qed.

Lemma trimLeft_done l : GoStrings.leadSpace (GoStrings.trimLeft l) = 0.
Proof. apply strip_done; [apply leadSpace_le | done]. Qed.

Lemma trimRight_prefix l : ∃ q, l = GoStrings.trimRight l ++ q.
Proof.
  unfold GoStrings.trimRight.
  destruct (strip_suffix GoStrings.tailSpace (length l) (rev l)) as [p Hp].
  exists (rev p). rewrite <- rev_app_distr, <- Hp. by rewrite rev_involutive.
Qed.

Lemma trimRight_done l :
  GoStrings.tailSpace (rev (GoStrings.trimRight l)) = 0.
Proof.
  unfold GoStrings.trimRight. rewrite rev_involutive.
  apply strip_done; [apply tailSpace_le | by rewrite length_rev].
Qed.

Lemma trim_fixed l :
  GoStrings.leadSpace l = 0 → GoStrings.tailSpace (rev l) = 0 →
  GoStrings.trimRight (GoStrings.trimLeft l) = l.
Proof.
  intros Hl Hr. unfold GoStrings.trimLeft. rewrite strip_fixed by done.
  unfold GoStrings.trimRight. rewrite strip_fixed by done. apply rev_involutive.
Qed.

(** Trimming a trimmed string changes nothing. *)
Lemma TrimSpace_idemp s : GoStrings.TrimSpace (GoStrings.TrimSpace s) = GoStrings.TrimSpace s.
Proof.
  unfold GoStrings.TrimSpace. rewrite bytes_of_bytes. f_equal.
  apply trim_fixed; [|apply trimRight_done].
  destruct (trimRight_prefix (GoStrings.trimLeft (bytes s))) as [q Hq].
  apply (leadSpace_prefix _ q). rewrite <- Hq. apply trimLeft_done.
Qed.

(** Membership in a list that is written out. *)
Ltac in_list := repeat first [apply list_elem_of_here | apply list_elem_of_further].

(** The ways through [runTask] once the command line is built. *)
Ltac run_cases w task :=
  destruct (startErr w) as [?err|];
  [|destruct (waitErr w) as [?err|];
    [|destruct (globResult w) as [[|?file ?files]|];
      [|destruct (moveOutputs w (ID task) (_ :: _)) as [[|?first ?names] ?lines]|]]].

(** ** The loop over the parameter map *)

Lemma paramsArgs_cons entry m :
  paramsArgs (entry :: m) = paramArgs entry.1 entry.2 ++ paramsArgs m.
Proof. reflexivity. Qed.

Lemma paramsArgs_app m1 m2 : paramsArgs (m1 ++ m2) = paramsArgs m1 ++ paramsArgs m2.
Proof. unfold paramsArgs. apply bind_app. Qed.

Lemma scan_args m sc : args (foldl paramStep sc m) = args sc ++ paramsArgs m.
Proof.
  revert sc. induction m as [|[key value] m IH]; intros sc.
  - simpl. by rewrite app_nil_r.
  - rewrite paramsArgs_cons.
    change (foldl paramStep sc ((key, value) :: m))
      with (foldl paramStep (paramStep sc (key, value)) m).
    rewrite IH. simpl. by rewrite <- app_assoc.
Qed.

Lemma scanParams_args task args0 :
  args (scanParams task args0) = args0 ++ paramsArgs (default [] (Params task)).
Proof.
  unfold scanParams. destruct (Params task) as [m|]; simpl.
  - apply scan_args.
  - by rewrite app_nil_r.
Qed.

Lemma scan_flags_false m sc :
  (∀ key value, (key, value) ∈ m → key ∈ openAIKeys → GoStrings.TrimSpace value = "") →
  hasAPIKey sc = false → hasModel sc = false → hasBaseURL sc = false →
  hasAPIKey (foldl paramStep sc m) = false
  ∧ hasModel (foldl paramStep sc m) = false
  ∧ hasBaseURL (foldl paramStep sc m) = false.
Proof.
  revert sc. induction m as [|[key value] m IH]; intros sc Hm H1 H2 H3; simpl; [done|].
  apply IH.
  - intros k v Hin. apply Hm. by apply list_elem_of_further.
  - simpl. case_bool_decide as Hk; [|done]. destruct Hk as [-> Hv].
    exfalso. apply Hv, (Hm "openai-api-key"); [apply list_elem_of_here|].
    unfold openAIKeys. in_list.
  - simpl. case_bool_decide as Hk; [|done]. destruct Hk as [-> Hv].
    exfalso. apply Hv, (Hm "openai-model"); [apply list_elem_of_here|].
    unfold openAIKeys. in_list.
  - simpl. case_bool_decide as Hk; [|done]. destruct Hk as [-> Hv].
    exfalso. apply Hv, (Hm "openai-base-url"); [apply list_elem_of_here|].
    unfold openAIKeys. in_list.
Qed.

(** Without an OpenAI setting in the form, the three flags stay down. *)
Lemma scanParams_no_openai task args0 :
  ¬ suppliesOpenAI task →
  let sc := scanParams task args0 in
  hasAPIKey sc = false ∧ hasModel sc = false ∧ hasBaseURL sc = false.
Proof.
  intros Hno. unfold scanParams. destruct (Params task) as [m|] eqn:Hp; [|done].
  apply scan_flags_false; try done.
  intros key value Hin Hkey.
  destruct (decide (GoStrings.TrimSpace value = "")) as [|Hne]; [done|].
  exfalso. apply Hno. by exists m, key, value.
Qed.

(** ** [beginTask] and [failTask] keep what identifies the task *)

Lemma beginTask_task now task d :
  (beginTask now task d).1
  = mkTask (ID task) (Filename task) running (LangIn task) (LangOut task) (Pages task)
      (Params task) (CreatedAt task) (Some now) (CompletedAt task) (Error task)
      (OutputFile task) (OutputFiles task).
Proof. reflexivity. Qed.

Lemma beginTask_db now task d :
  (beginTask now task d).2 = sqlSetStarted (ID task) running (Some now) d.
Proof. reflexivity. Qed.

Lemma processTask_unfold now w task d :
  processTask now w task d = runTask w (beginTask now task d).1 (beginTask now task d).2.
Proof. reflexivity. Qed.

(** ** The shape of a run that reaches [cmd.Start] *)

Lemma runTask_cmd w task d cmdargs env :
  out_cmd (runTask w task d) = Some (cmdargs, env) →
  logCreateOK w = true
  ∧ env = childEnv task
  ∧ ∃ line args1 rest,
      resolveOpenAI w (scanParams task (baseArgs task)) = (line, Some args1)
      ∧ cmdargs = args1 ++ ["--openai"]
      ∧ out_log (runTask w task d) = logHeader task ++ [line; cmdLine cmdargs] ++ rest.
Proof.
  unfold runTask, failWith.
  destruct (logCreateOK w); cbn [negb]; [|done].
  destruct (resolveOpenAI w (scanParams task (baseArgs task))) as [line [args1|]];
    [|done].
  intros Hcmd. split; [done|].
  assert (Some (args1 ++ ["--openai"], childEnv task) = Some (cmdargs, env)) as [= <- <-].
  { revert Hcmd. by run_cases w task. }
  split; [done|]. exists line, args1. clear Hcmd.
  run_cases w task; cbn [failTask out_log]; eexists;
    (split; [done|]); (split; [done|]); by rewrite <- !app_assoc.
Qed.

Lemma resolveOpenAI_args w sc line args1 :
  resolveOpenAI w sc = (line, Some args1) →
  ∃ extra, args1 = args sc ++ extra ∧ (extra = [] ∨ extra = envOpenAIArgs w).
Proof.
  unfold resolveOpenAI. repeat case_match; intros [= <- <-].
  - exists (envOpenAIArgs w). eauto.
  - exists []. rewrite app_nil_r. eauto.
Qed.

Lemma resolveOpenAI_line w sc line args1 :
  resolveOpenAI w sc = (line, Some args1) → line = msgEnvConfig ∨ line = msgFormConfig.
Proof. unfold resolveOpenAI. repeat case_match; intros [= <- <-]; eauto. Qed.

Lemma resolveOpenAI_env w sc line args1 :
  hasAPIKey sc = false → hasModel sc = false → hasBaseURL sc = false →
  resolveOpenAI w sc = (line, Some args1) →
  Getenv w "OPENAI_API_KEY" ≠ "" ∧ args1 = args sc ++ envOpenAIArgs w.
Proof.
  unfold resolveOpenAI. intros -> -> ->. cbn [negb andb].
  case_bool_decide; [|done]. by intros [= <- <-].
Qed.

Lemma paramsArgs_elem key value m x :
  (key, value) ∈ m → x ∈ paramArgs key value → x ∈ paramsArgs m.
Proof.
  intros Hin Hx. unfold paramsArgs. apply list_elem_of_bind.
  exists (key, value). by split.
Qed.

Lemma cmdLine_Substring x cmdargs : x ∈ cmdargs → Substring x (cmdLine cmdargs).
Proof.
  intros Hin. unfold cmdLine.
  apply Substring_app_l, Substring_app_r. by apply Join_Substring.
Qed.

(** ** C1: missing credentials *)

(** C1 (amended).  When the log file has been opened, the job's parameter
    map gives none of openai-api-key, openai-model and openai-base-url a
    value that is non-empty once trimmed, and the environment has no
    OPENAI_API_KEY, processing fails the job with the missing-key error,
    records that in the table, logs the header and the error line only,
    and never reaches [cmd.Start]. *)
Theorem C1_missing_credentials now w task d :
  logCreateOK w = true →
  ¬ suppliesOpenAI task →
  Getenv w "OPENAI_API_KEY" = "" →
  let o := processTask now w task d in
  out_cmd o = None
  ∧ Status (out_task o) = failed
  ∧ Error (out_task o) = errNoAPIKey
  ∧ out_db o = sqlSetFailed (ID task) failed (Some (doneAt w)) errNoAPIKey
                 (sqlSetStarted (ID task) running (Some now) d)
  ∧ out_log o = logHeader task ++ [msgNoOpenAI].
Proof.
  intros Hlog Hno Henv. cbn zeta. rewrite processTask_unfold.
  set (task' := (beginTask now task d).1).
  assert (Hno' : ¬ suppliesOpenAI task') by exact Hno.
  destruct (scanParams_no_openai task' (baseArgs task') Hno') as (H1 & H2 & H3).
  unfold runTask. rewrite Hlog. cbn [negb].
  unfold resolveOpenAI. rewrite H1, H2, H3. cbn [negb andb].
  rewrite Henv. rewrite bool_decide_eq_false_2 by (by intros ?).
  done.
Qed.

Lemma C1_missing_credentials_witness :
  let o := processTask (Sample.noon 2000) (Sample.world Sample.noEnv [] 9000)
             (Sample.taskOf Sample.reqPlain 5) (db (Sample.submitted Sample.reqPlain 5)) in
  out_cmd o = None ∧ Status (out_task o) = failed ∧ Error (out_task o) = errNoAPIKey.
Proof.
  destruct (C1_missing_credentials (Sample.noon 2000) (Sample.world Sample.noEnv [] 9000)
              (Sample.taskOf Sample.reqPlain 5) (db (Sample.submitted Sample.reqPlain 5)))
    as (H1 & H2 & H3 & _).
  - reflexivity.
  - intros (m & key & value & Hp & Hin & _). injection Hp as <-. by apply elem_of_nil in Hin.
  - reflexivity.
  - exact (conj H1 (conj H2 H3)).
Defined.

Lemma paramStep_anyFlag sc entry : anyFlag sc = true → anyFlag (paramStep sc entry) = true.
Proof.
  destruct entry as [key value]. unfold anyFlag. cbn.
  destruct (hasAPIKey sc), (hasModel sc), (hasBaseURL sc);
    repeat case_bool_decide; done.
Qed.

Lemma foldl_anyFlag m sc : anyFlag sc = true → anyFlag (foldl paramStep sc m) = true.
Proof.
  revert sc. induction m as [|entry m IH]; intros sc Hsc; [done|].
  cbn. by apply IH, paramStep_anyFlag.
Qed.

Lemma scan_anyFlag m sc key value :
  (key, value) ∈ m → key ∈ openAIKeys → GoStrings.TrimSpace value ≠ "" →
  anyFlag (foldl paramStep sc m) = true.
Proof.
  revert sc. induction m as [|entry m IH]; intros sc Hin Hkey Hval.
  - by apply elem_of_nil in Hin.
  - apply elem_of_cons in Hin as [<-|Hin]; [|by apply IH].
    cbn [foldl]. apply foldl_anyFlag. unfold anyFlag. cbn.
    unfold openAIKeys in Hkey.
    repeat (apply elem_of_cons in Hkey as [->|Hkey]);
      [..|by apply elem_of_nil in Hkey];
      repeat case_bool_decide; cbn; rewrite ?orb_true_r; try done; naive_solver.
Qed.

(** The design behind the counterexample below: as soon as the form
    gives any of the three OpenAI settings, the environment is not read
    and the run goes on to [cmd.Start], key or no key. *)
Lemma form_settings_reach_start now w task d :
  logCreateOK w = true →
  suppliesOpenAI task →
  ∃ cmdargs,
    out_cmd (processTask now w task d) = Some (cmdargs ++ ["--openai"], childEnv task)
    ∧ cmdargs = baseArgs task ++ paramsArgs (default [] (Params task)).
Proof.
  intros Hlog (m & key & value & Hp & Hin & Hkey & Hval).
  rewrite processTask_unfold.
  set (task' := (beginTask now task d).1). set (d' := (beginTask now task d).2).
  assert (Hflag : anyFlag (scanParams task' (baseArgs task')) = true).
  { unfold scanParams. change (Params task') with (Params task). rewrite Hp.
    by eapply scan_anyFlag. }
  assert (Hres : resolveOpenAI w (scanParams task' (baseArgs task'))
                 = (msgFormConfig, Some (args (scanParams task' (baseArgs task'))))).
  { unfold resolveOpenAI. unfold anyFlag in Hflag.
    destruct (hasAPIKey _), (hasModel _), (hasBaseURL _); done. }
  exists (args (scanParams task' (baseArgs task'))). split.
  - unfold runTask, failWith. rewrite Hlog, Hres. cbn [negb].
    by run_cases w task'.
  - by rewrite scanParams_args.
Qed.

(** C1 as stated fails: a form that gives a model but no key, with no
    key in the environment either, is not stopped; the child is started
    without any key and the job can even succeed. *)
Lemma C1_counterexample :
  let task := Sample.taskOf Sample.reqModelOnly 5 in
  let w := Sample.world Sample.noEnv [Sample.producedFile] 9000 in
  let o := processTask (Sample.noon 2000) w task (db (Sample.submitted Sample.reqModelOnly 5)) in
  Params task = Some [("openai-model", "gpt-4o")]
  ∧ Getenv w "OPENAI_API_KEY" = ""
  ∧ logCreateOK w = true
  ∧ out_cmd o = Some (["--files"; "/tmp/babeldoc/uploads/20240101-120000_report.pdf";
                       "--lang-in"; "en"; "--lang-out"; "zh";
                       "--output"; "/tmp/babeldoc/outputs/20240101-120000_305";
                       "--openai-model"; "gpt-4o"; "--openai"], [])
  ∧ Status (out_task o) = success.
Proof. vm_compute. repeat split. Qed.

(** ** C5: a clean exit without output files *)

(** C5.  When the child was started, exits with status zero
    ([cmd.Start] and [cmd.Wait] return no error) and the glob for
    produced files matches nothing, the job becomes failed with the
    no-output error, in memory and in the table, and the log holds
    that error. *)
Theorem C5_no_output now w task d cmdargs env :
  out_cmd (processTask now w task d) = Some (cmdargs, env) →
  startErr w = None →
  waitErr w = None →
  globResult w = Some [] →
  let o := processTask now w task d in
  Status (out_task o) = failed
  ∧ Error (out_task o) = errNoOutput
  ∧ CompletedAt (out_task o) = Some (doneAt w)
  ∧ out_db o = sqlSetFailed (ID task) failed (Some (doneAt w)) errNoOutput
                 (sqlSetStarted (ID task) running (Some now) d)
  ∧ ("ERROR: " +:+ errNoOutput +:+ LF) ∈ out_log o.
Proof.
  intros Hcmd Hstart Hwait Hglob. cbn zeta. revert Hcmd.
  rewrite processTask_unfold.
  set (task' := (beginTask now task d).1). set (d' := (beginTask now task d).2).
  intros Hcmd. apply runTask_cmd in Hcmd as (Hlog & _ & line & args1 & _ & Hres & _ & _).
  unfold runTask, failWith. rewrite Hlog, Hres, Hstart, Hwait, Hglob.
  cbn [negb failTask out_task out_db out_log Status Error CompletedAt ID].
  repeat split. rewrite elem_of_app. right. in_list.
Qed.

Lemma C5_no_output_witness :
  let o := processTask (Sample.noon 2000) (Sample.world Sample.envKey [] 9000)
             (Sample.taskOf Sample.reqPlain 5) (db (Sample.submitted Sample.reqPlain 5)) in
  Status (out_task o) = failed ∧ Error (out_task o) = errNoOutput.
Proof.
  destruct (C5_no_output (Sample.noon 2000) (Sample.world Sample.envKey [] 9000)
              (Sample.taskOf Sample.reqPlain 5) (db (Sample.submitted Sample.reqPlain 5))
              Sample.argsFromEnv [])
    as (H1 & H2 & _); [reflexivity..|].
  exact (conj H1 H2).
Defined.

(** ** C2: the key and the log *)

(** C2 (amended).  Whenever processing reaches [cmd.Start], the log
    consists of the three header lines, the line that names the source
    of the OpenAI settings, the line that echoes the command, made of
    the very arguments handed to the child, and what follows.  The echo
    contains the API key when the key comes from OPENAI_API_KEY in the
    environment (the form gave no OpenAI setting), and when it comes
    from an openai-api-key parameter whose trimmed value is not one of
    true, on, false, off. *)
Theorem C2_command_line_logged now w task d cmdargs env :
  out_cmd (processTask now w task d) = Some (cmdargs, env) →
  (∃ line rest,
      out_log (processTask now w task d)
      = logHeader task ++ [line; cmdLine cmdargs] ++ rest
      ∧ (line = msgEnvConfig ∨ line = msgFormConfig))
  ∧ (¬ suppliesOpenAI task →
     Getenv w "OPENAI_API_KEY" ≠ ""
     ∧ Substring (Getenv w "OPENAI_API_KEY") (cmdLine cmdargs))
  ∧ (∀ m value,
       Params task = Some m → ("openai-api-key", value) ∈ m →
       GoStrings.TrimSpace value ∉ [""; "true"; "on"; "false"; "off"] →
       Substring (GoStrings.TrimSpace value) (cmdLine cmdargs)).
Proof.
  rewrite processTask_unfold.
  set (task' := (beginTask now task d).1). set (d' := (beginTask now task d).2).
  intros Hcmd.
  apply runTask_cmd in Hcmd as (_ & _ & line & args1 & rest & Hres & -> & ->).
  split; [|split].
  - exists line, rest. split; [done|]. by eapply resolveOpenAI_line.
  - intros Hno.
    destruct (scanParams_no_openai task' (baseArgs task') Hno) as (H1 & H2 & H3).
    destruct (resolveOpenAI_env _ _ _ _ H1 H2 H3 Hres) as [Hkey ->].
    split; [done|]. apply cmdLine_Substring.
    rewrite !elem_of_app. left. right. unfold envOpenAIArgs.
    apply elem_of_app. left. in_list.
  - intros m value Hp Hin Hv.
    apply resolveOpenAI_args in Hres as (extra & -> & _).
    apply cmdLine_Substring. rewrite scanParams_args.
    change (Params task') with (Params task). rewrite Hp. cbn [default].
    rewrite !elem_of_app. left. left. right.
    apply (paramsArgs_elem "openai-api-key" value); [done|].
    unfold paramArgs. cbn zeta.
    repeat (apply not_elem_of_cons in Hv as [? Hv]).
    rewrite bool_decide_eq_true_2 by done.
    rewrite bool_decide_eq_false_2 by (intros [?|?]; done).
    rewrite bool_decide_eq_true_2 by done.
    in_list.
Qed.

Lemma C2_command_line_logged_witness :
  let w := Sample.world Sample.envKey [Sample.producedFile] 9000 in
  let o := processTask (Sample.noon 2000) w (Sample.taskOf Sample.reqPlain 5)
             (db (Sample.submitted Sample.reqPlain 5)) in
  (∃ line rest,
      out_log o = logHeader (Sample.taskOf Sample.reqPlain 5)
                  ++ [line; cmdLine Sample.argsFromEnv] ++ rest
      ∧ (line = msgEnvConfig ∨ line = msgFormConfig))
  ∧ Substring "sk-secret" (cmdLine Sample.argsFromEnv).
Proof.
  destruct (C2_command_line_logged (Sample.noon 2000)
              (Sample.world Sample.envKey [Sample.producedFile] 9000)
              (Sample.taskOf Sample.reqPlain 5) (db (Sample.submitted Sample.reqPlain 5))
              Sample.argsFromEnv [] eq_refl) as (H1 & H2 & _).
  split; [exact H1|]. apply H2.
  intros (m & key & value & Hp & Hin & _). injection Hp as <-. by apply elem_of_nil in Hin.
Defined.

(** C2 as stated fails: with the key taken from the environment, the
    fifth line of the job's log contains it. *)
Lemma C2_counterexample :
  let w := Sample.world Sample.envKey [Sample.producedFile] 9000 in
  let o := processTask (Sample.noon 2000) w (Sample.taskOf Sample.reqPlain 5)
             (db (Sample.submitted Sample.reqPlain 5)) in
  Getenv w "OPENAI_API_KEY" = "sk-secret"
  ∧ ∃ line, out_log o !! 4 = Some line ∧ Substring "sk-secret" line.
Proof.
  split; [reflexivity|]. eexists. split; [vm_compute; reflexivity|].
  exists ("==> 执行命令: babeldoc --files /tmp/babeldoc/uploads/20240101-120000_report.pdf "
          +:+ "--lang-in en --lang-out zh --output /tmp/babeldoc/outputs/20240101-120000_305 "
          +:+ "--openai-api-key "),
         (" --openai-model gpt-4o-mini --openai" +:+ LF).
  vm_compute. reflexivity.
Qed.

(** ** C4: flags derived from the parameter map *)

Lemma paramArgs_dropped key value :
  GoStrings.TrimSpace value ∈ [""; "false"; "off"] → paramArgs key value = [].
Proof.
  unfold paramArgs. cbn zeta. intros Hv.
  repeat (apply elem_of_cons in Hv as [->|Hv]); try by apply elem_of_nil in Hv.
  all: reflexivity.
Qed.

Lemma paramArgs_bare key value :
  GoStrings.TrimSpace value ∈ ["true"; "on"] → paramArgs key value = ["--" +:+ key].
Proof.
  unfold paramArgs. cbn zeta. intros Hv.
  repeat (apply elem_of_cons in Hv as [->|Hv]); try by apply elem_of_nil in Hv.
  all: reflexivity.
Qed.

Lemma entry_split (m : ParamsMap) key value :
  NoDup m.*1 → (key, value) ∈ m →
  ∃ m1 m2, m = m1 ++ (key, value) :: m2 ∧ key ∉ ((m1 ++ m2).*1).
Proof.
  intros Hnd Hin. apply list_elem_of_split in Hin as (m1 & m2 & ->).
  exists m1, m2. split; [done|].
  rewrite fmap_app in Hnd |- *. cbn [fmap list_fmap fst] in Hnd.
  apply NoDup_app in Hnd as (_ & Hd & Hnd2). apply NoDup_cons in Hnd2 as [Hk _].
  intros [Hl|Hr]%elem_of_app; [|done].
  apply (Hd key Hl). apply list_elem_of_here.
Qed.

(** C4 (amended).  The command line is the fixed arguments, then what
    the loop over the parameter map emits entry by entry, then the
    arguments taken from the environment if any, then one [--openai]
    that is appended whatever the map holds.  For a map with distinct
    keys, the loop emits nothing for an entry whose trimmed value is
    empty, false or off, and exactly the one bare flag [--key] for an
    entry whose trimmed value is true or on, and no other entry has that
    key. *)
Theorem C4_flags now w task d m cmdargs env :
  Params task = Some m →
  NoDup m.*1 →
  out_cmd (processTask now w task d) = Some (cmdargs, env) →
  (∃ extra, cmdargs = baseArgs task ++ paramsArgs m ++ extra ++ ["--openai"]
            ∧ (extra = [] ∨ extra = envOpenAIArgs w))
  ∧ ∀ key value, (key, value) ∈ m →
      (∃ m1 m2, m = m1 ++ (key, value) :: m2
                ∧ (key ∉ (m1 ++ m2).*1)
                ∧ paramsArgs m = paramsArgs m1 ++ paramArgs key value ++ paramsArgs m2)
      ∧ (GoStrings.TrimSpace value ∈ [""; "false"; "off"] → paramArgs key value = [])
      ∧ (GoStrings.TrimSpace value ∈ ["true"; "on"] → paramArgs key value = ["--" +:+ key]).
Proof.
  intros Hp Hnd. rewrite processTask_unfold.
  set (task' := (beginTask now task d).1). set (d' := (beginTask now task d).2).
  intros Hcmd.
  apply runTask_cmd in Hcmd as (_ & _ & line & args1 & rest & Hres & -> & _).
  apply resolveOpenAI_args in Hres as (extra & -> & Hextra).
  split.
  - exists extra. split; [|done].
    rewrite scanParams_args. change (Params task') with (Params task).
    rewrite Hp. cbn [default]. change (baseArgs task') with (baseArgs task).
    by rewrite <- !app_assoc.
  - intros key value Hin. split; [|split].
    + destruct (entry_split m key value Hnd Hin) as (m1 & m2 & -> & Hk).
      exists m1, m2. split; [done|]. split; [done|].
      by rewrite paramsArgs_app, paramsArgs_cons.
    + apply paramArgs_dropped.
    + apply paramArgs_bare.
Qed.

Lemma C4_flags_witness :
  paramArgs "debug" "true" = ["--debug"]
  ∧ ∃ extra, Sample.argsMixed
             = baseArgs (Sample.taskOf Sample.reqMixed 5)
               ++ paramsArgs [("debug", "true"); ("qps", "4")] ++ extra ++ ["--openai"].
Proof.
  assert (Hnd : NoDup ([("debug", "true"); ("qps", "4")] : ParamsMap).*1).
  { cbn. repeat constructor; rewrite ?elem_of_cons, ?elem_of_nil; intros H;
      repeat destruct H as [H|H]; done. }
  destruct (C4_flags (Sample.noon 2000) (Sample.world Sample.envKey [] 9000)
              (Sample.taskOf Sample.reqMixed 5) (db (Sample.submitted Sample.reqMixed 5))
              [("debug", "true"); ("qps", "4")] Sample.argsMixed [] eq_refl Hnd eq_refl)
    as [(extra & He & _) Hentry].
  split; [|by exists extra].
  destruct (Hentry "debug" "true") as (_ & _ & Hbare); [apply list_elem_of_here|].
  apply Hbare. cbn. apply list_elem_of_here.
Defined.

(** C4 as stated fails for the key [openai]: the flag appears twice. *)
Lemma C4_counterexample :
  let task := Sample.taskOf Sample.reqOpenAIFlag 5 in
  let o := processTask (Sample.noon 2000) (Sample.world Sample.noEnv [] 9000) task
             (db (Sample.submitted Sample.reqOpenAIFlag 5)) in
  Params task = Some [("openai", "true"); ("openai-api-key", "sk-form")]
  ∧ ∃ cmdargs env,
      out_cmd o = Some (cmdargs, env)
      ∧ length (filter (λ a, a = "--openai") cmdargs) = 2.
Proof.
  split; [reflexivity|]. eexists _, _. split; [vm_compute; reflexivity|].
  vm_compute. reflexivity.
Qed.

(** ** Identifiers and upload paths *)

Lemma genTaskID_timestamp now now' :
  hd "" (GoStrings.Split (genTaskID (genTimestamp now) now') "_") = genTimestamp now.
Proof.
  unfold genTaskID, genTimestamp.
  change ("_" +:+ ?x) with (String "_" x).
  apply Split_head, Format_no_underscore.
Qed.

Lemma genTaskID_inj a a' b b' :
  genTaskID (genTimestamp a) a' = genTaskID (genTimestamp b) b' →
  GoTime.Format a = GoTime.Format b
  ∧ Z.rem (UnixNano a') 10000 = Z.rem (UnixNano b') 10000.
Proof.
  intros Heq.
  assert (Hts : genTimestamp a = genTimestamp b).
  { rewrite <- (genTaskID_timestamp a a'), <- (genTaskID_timestamp b b'). by rewrite Heq. }
  split; [exact Hts|].
  unfold genTaskID in Heq. rewrite Hts in Heq.
  apply String.app_inj in Heq. injection Heq as Heq. by apply fmt_d_inj.
Qed.

Lemma generatedID_Some req io id :
  generatedID req io = Some id →
  Method req = "POST" ∧ multipartOK req = true
  ∧ ∃ headerFilename,
      FormFile req = Some headerFilename
      ∧ GoStrings.HasSuffix (GoStrings.ToLower headerFilename) ".pdf" = true
      ∧ id = genTaskID (genTimestamp (nowStamp io)) (nowSuffix io).
Proof.
  unfold generatedID. case_bool_decide as Hm; [done|].
  destruct (multipartOK req); [|done].
  destruct (FormFile req) as [h|]; [|done].
  destruct (GoStrings.HasSuffix (GoStrings.ToLower h) ".pdf") eqn:Hpdf; [|done].
  cbn [negb]. intros [= <-]. split; [done|]. split; [done|].
  by exists h.
Qed.

(** What the handler does with a request that gets an identifier. *)
Lemma submit_generated req io s id headerFilename :
  generatedID req io = Some id →
  FormFile req = Some headerFilename →
  submitTaskHandler req io s =
    let inputPath := uploadPath (genTimestamp (nowStamp io)) headerFilename in
    if negb (createOK io) then (ReplyError 500 "Error creating file", [], s)
    else if negb (copyOK io) then
      (ReplyError 500 "Error saving file", [FsCreate inputPath; FsRemove inputPath], s)
    else
      match sqlInsert (newTask req io headerFilename) (db s) with
      | None => (ReplyError 500 ("Error saving task: " +:+ insertErrText io),
                 [FsCreate inputPath; FsRemove inputPath], s)
      | Some d => (ReplyAccepted id, [FsCreate inputPath],
                   mkServer d (taskQueue s ++ [newTask req io headerFilename]) (current s))
      end.
Proof.
  intros Hid Hf.
  apply generatedID_Some in Hid as (Hm & Hp & h & Hf' & Hpdf & ->).
  rewrite Hf in Hf'. injection Hf' as <-.
  unfold submitTaskHandler.
  rewrite bool_decide_eq_false_2 by (by intros ?).
  rewrite Hp, Hf, Hpdf. reflexivity.
Qed.

Lemma submit_not_generated req io s :
  generatedID req io = None → (submitTaskHandler req io s).2 = s.
Proof.
  unfold generatedID, submitTaskHandler.
  case_bool_decide; [done|].
  destruct (multipartOK req); [|done].
  destruct (FormFile req) as [h|]; [|done].
  by destruct (GoStrings.HasSuffix (GoStrings.ToLower h) ".pdf").
Qed.

Lemma workerInputPath_newTask req io headerFilename :
  workerInputPath (newTask req io headerFilename)
  = uploadPath (genTimestamp (nowStamp io)) headerFilename.
Proof.
  unfold workerInputPath, uploadPath. cbn [ID Filename newTask].
  by rewrite genTaskID_timestamp.
Qed.

(** ** C9: the worker finds the upload where the handler stored it *)

(** C9.  When a submission is accepted, the handler has created exactly
    one file, and its path is the input path the worker rebuilds from
    the queued task's identifier and filename, also after the task has
    been marked running. *)
Theorem C9_input_path req io s id ops s' :
  submitTaskHandler req io s = (ReplyAccepted id, ops, s') →
  ∃ task,
    taskQueue s' = taskQueue s ++ [task]
    ∧ ID task = id
    ∧ ops = [FsCreate (workerInputPath task)]
    ∧ ∀ now d, workerInputPath (beginTask now task d).1 = workerInputPath task.
Proof.
  intros Hsub.
  destruct (generatedID req io) as [id'|] eqn:Hid.
  - pose proof Hid as (_ & _ & h & Hf & _ & ->)%generatedID_Some.
    rewrite (submit_generated req io s _ h Hid Hf) in Hsub. cbn zeta in Hsub.
    destruct (createOK io); [|done]. destruct (copyOK io); [|done]. cbn [negb] in Hsub.
    destruct (sqlInsert (newTask req io h) (db s)) as [d|]; [|done].
    injection Hsub as <- <- <-.
    exists (newTask req io h). cbn [taskQueue].
    split; [done|]. split; [done|]. split; [|done].
    by rewrite workerInputPath_newTask.
  - exfalso. revert Hsub Hid. unfold submitTaskHandler, generatedID.
    case_bool_decide; [done|].
    destruct (multipartOK req); [|done].
    destruct (FormFile req) as [h|]; [|done].
    by destruct (GoStrings.HasSuffix (GoStrings.ToLower h) ".pdf").
Qed.

Lemma C9_input_path_witness :
  ∃ task,
    taskQueue (Sample.submitted Sample.reqPlain 5) = [task]
    ∧ ID task = "20240101-120000_305"
    ∧ [FsCreate "/tmp/babeldoc/uploads/20240101-120000_report.pdf"]
      = [FsCreate (workerInputPath task)].
Proof.
  destruct (C9_input_path Sample.reqPlain (Sample.io 5) initServer "20240101-120000_305"
              [FsCreate "/tmp/babeldoc/uploads/20240101-120000_report.pdf"]
              (Sample.submitted Sample.reqPlain 5) eq_refl)
    as (task & Hq & Hid & Hops & _).
  exists task. split; [exact Hq|]. split; [exact Hid|exact Hops].
Defined.

(** ** C7: identifiers *)

Lemma sqlInsert_Some task (d d' : gmap string Row) :
  sqlInsert task d = Some d' →
  d !! ID task = None
  ∧ d' = <[ID task := mkRow (ID task) (Filename task) (Status task)
             (Some (LangIn task)) (Some (LangOut task)) (Some (Pages task))
             (Params task) (CreatedAt task) None None None None None]> d.
Proof.
  unfold sqlInsert. destruct (d !! ID task); [done|]. by intros [= <-].
Qed.

Lemma sqlInsert_None task (d : gmap string Row) :
  sqlInsert task d = None ↔ is_Some (d !! ID task).
Proof.
  unfold sqlInsert. by destruct (d !! ID task) as [r|]; split; try done; intros [? ?].
Qed.

(** C7 (amended).  The identifier a submission generates embeds the
    creation timestamp (it is the text before the first underscore).
    Another submission generates the same identifier exactly when it has
    the same second-resolution timestamp and a nanosecond reading equal
    modulo 10000, so distinct submissions can collide.  The table keeps
    identifiers unique all the same: a submission whose identifier is in
    the table is answered with an error and changes nothing, and one
    whose identifier is not there (the upload being written) is accepted
    and adds one queued row under that identifier. *)
Theorem C7_identifiers req io s id :
  generatedID req io = Some id →
  hd "" (GoStrings.Split id "_") = GoTime.Format (nowStamp io)
  ∧ (∀ req' io' id', generatedID req' io' = Some id' →
       id' = id ↔
       GoTime.Format (nowStamp io') = GoTime.Format (nowStamp io)
       ∧ Z.rem (UnixNano (nowSuffix io')) 10000 = Z.rem (UnixNano (nowSuffix io)) 10000)
  ∧ (is_Some (db s !! id) →
       (submitTaskHandler req io s).2 = s
       ∧ ∃ code msg, (submitTaskHandler req io s).1.1 = ReplyError code msg)
  ∧ (db s !! id = None → createOK io = true → copyOK io = true →
       (submitTaskHandler req io s).1.1 = ReplyAccepted id
       ∧ ∃ r, db (submitTaskHandler req io s).2 = <[id := r]> (db s)
              ∧ row_id r = id ∧ row_status r = queued).
Proof.
  intros Hid.
  pose proof Hid as (_ & _ & h & Hf & _ & Heq)%generatedID_Some.
  split; [|split; [|split]].
  - rewrite Heq. apply genTaskID_timestamp.
  - intros req' io' id' Hid'.
    apply generatedID_Some in Hid' as (_ & _ & _ & _ & _ & Heq').
    rewrite Heq, Heq'. split; [apply genTaskID_inj|].
    unfold genTaskID, genTimestamp. by intros [-> ->].
  - intros Hin. rewrite (submit_generated req io s id h Hid Hf). cbn zeta.
    destruct (createOK io); cbn [negb]; [|by eauto].
    destruct (copyOK io); cbn [negb]; [|by eauto].
    assert (sqlInsert (newTask req io h) (db s) = None) as ->; [|by eauto].
    apply sqlInsert_None. cbn [ID newTask]. by rewrite <- Heq.
  - intros Hnone Hc Hw. rewrite (submit_generated req io s id h Hid Hf). cbn zeta.
    rewrite Hc, Hw. cbn [negb].
    destruct (sqlInsert (newTask req io h) (db s)) as [d|] eqn:Hins.
    + apply sqlInsert_Some in Hins as [_ ->]. cbn [fst snd db].
      split; [done|]. eexists. cbn [ID newTask]. rewrite <- Heq.
      split; [reflexivity|]. by rewrite Heq.
    + apply sqlInsert_None in Hins. cbn [ID newTask] in Hins.
      rewrite <- Heq, Hnone in Hins. by destruct Hins.
Qed.

Lemma C7_identifiers_witness :
  hd "" (GoStrings.Split "20240101-120000_305" "_") = "20240101-120000"
  ∧ (submitTaskHandler Sample.reqPlain (Sample.io 5) initServer).1.1
    = ReplyAccepted "20240101-120000_305".
Proof.
  destruct (C7_identifiers Sample.reqPlain (Sample.io 5) initServer "20240101-120000_305"
              eq_refl) as (H1 & _ & _ & H4).
  split; [exact H1|]. by apply H4.
Defined.

(** C7 as stated fails: two distinct valid submissions, 0.4 s apart
    within one second, generate the same identifier; the second is then
    refused by the table. *)
Lemma C7_counterexample :
  Sample.reqPlain ≠ Sample.reqOther
  ∧ UnixNano (nowSuffix (Sample.io 5)) ≠ UnixNano (nowSuffix (Sample.io 400000005))
  ∧ generatedID Sample.reqPlain (Sample.io 5) = Some "20240101-120000_305"
  ∧ generatedID Sample.reqOther (Sample.io 400000005) = Some "20240101-120000_305"
  ∧ (submitTaskHandler Sample.reqOther (Sample.io 400000005)
       (Sample.submitted Sample.reqPlain 5)).1.1
    = ReplyError 500 "Error saving task: UNIQUE constraint failed: tasks.id".
Proof. repeat split; try done; vm_compute; reflexivity. Qed.

(** ** C3: downloads by name *)

(** When the job has a recorded output list, a name outside it is
    answered with 404. *)
Lemma download_checked taskID fileName exists_ (d : gmap string Row) r files :
  d !! taskID = Some r →
  row_output_files r = Some files →
  fileName ≠ "" →
  fileName ∉ files →
  downloadTaskHandler taskID fileName exists_ d = HttpError 404 "File not found"
  ∨ taskID = "".
Proof.
  intros Hr Hfiles Hname Hnot. unfold downloadTaskHandler.
  case_bool_decide; [by right|]. left.
  rewrite bool_decide_eq_true_2 by done. rewrite Hr, Hfiles.
  by rewrite bool_decide_eq_false_2.
Qed.

(** C3 fails on the code.  A job that failed has no recorded outputs
    (the column [output_files] is NULL), and for such a job the
    membership check is skipped: a request that names
    [../uploads/20240101-120000_report.pdf] is served the uploaded file,
    which lies outside the output directory. *)
Theorem C3_download_outside_outputs :
  let s := run initServer
             [EvSubmit Sample.reqPlain (Sample.io 5);
              EvDequeue (Sample.noon 2000);
              EvFinish (Sample.world Sample.noEnv [] 9000)] in
  let onDisk := λ path, bool_decide (path = "/tmp/babeldoc/uploads/20240101-120000_report.pdf") in
  (λ t, (ID t, Status t, OutputFiles t)) <$> listTasksHandler (db s)
  = [("20240101-120000_305", failed, [])]
  ∧ downloadTaskHandler "20240101-120000_305" "../uploads/20240101-120000_report.pdf"
      onDisk (db s)
    = ServeFile "/tmp/babeldoc/uploads/20240101-120000_report.pdf"
        "attachment; filename=20240101-120000_report.pdf".
Proof. vm_compute. split; reflexivity. Qed.

(** ** What every reachable table satisfies *)

Lemma tableSound_alter f id (d : gmap string Row) :
  keepsSubmitted f → tableSound d → tableSound (alter f id d).
Proof.
  intros Hf Hd j r'. rewrite lookup_alter_Some.
  intros [(-> & r & Hr & ->)|[_ Hr]]; [|by apply Hd].
  destruct (Hd _ _ Hr) as (Hid & (H1 & H2 & H3) & Hs & Hp).
  destruct (Hf r) as (Fid & F1 & F2 & F3 & Fp & _).
  unfold rowSound, rowScans. by rewrite Fid, F1, F2, F3, Fp.
Qed.

Lemma tableSound_delete id (d : gmap string Row) :
  tableSound d → tableSound (delete id d).
Proof. intros Hd j r [_ Hr]%lookup_delete_Some. by apply Hd. Qed.

Lemma sqlSetStarted_sound id st t (d : gmap string Row) :
  tableSound d → tableSound (sqlSetStarted id st t d).
Proof. by apply tableSound_alter. Qed.

Lemma sqlSetFailed_sound id st t err (d : gmap string Row) :
  tableSound d → tableSound (sqlSetFailed id st t err d).
Proof. by apply tableSound_alter. Qed.

Lemma sqlSetSucceeded_sound id st t f fs (d : gmap string Row) :
  tableSound d → tableSound (sqlSetSucceeded id st t f fs d).
Proof. by apply tableSound_alter. Qed.

(** *** The filter of the submission handler *)

Lemma mapSet_Forall (P : string * string → Prop) m key value :
  Forall P m → P (key, value) → Forall P (mapSet m key value).
Proof.
  induction m as [|[k v] m IH]; intros Hm Hkv; simpl.
  - by constructor.
  - apply Forall_cons in Hm as [Hk Hm].
    case_bool_decide as Heq.
    + subst k. by constructor.
    + constructor; [done|]. by apply IH.
Qed.

Lemma collectParam_kept acc entry :
  Forall (λ e, paramKept e.2) acc → Forall (λ e, paramKept e.2) (collectParam acc entry).
Proof.
  intros Hacc. destruct entry as [key [|v0 values]]; simpl; [done|].
  case_bool_decide as Hkey; [|done].
  case_bool_decide as Hval; [|done].
  apply mapSet_Forall; [done|]. simpl.
  unfold paramKept. by rewrite TrimSpace_idemp.
Qed.

Lemma collectParams_kept form : Forall (λ e, paramKept e.2) (collectParams form).
Proof.
  unfold collectParams.
  assert (H : ∀ acc, Forall (λ e, paramKept e.2) acc →
                     Forall (λ e, paramKept e.2) (foldl collectParam acc form)).
  { induction form as [|entry form IH]; intros acc Hacc; simpl; [done|].
    by apply IH, collectParam_kept. }
  apply H. constructor.
Qed.

Lemma newTask_paramsKept req io h : paramsKept (Params (newTask req io h)).
Proof.
  intros m key value [= <-] Hin.
  pose proof (collectParams_kept (Form req)) as Hall.
  rewrite Forall_forall in Hall. exact (Hall _ Hin).
Qed.

(** *** The ways [runTask] ends *)

Lemma runTask_cases w task d :
  (∃ msg log cmd,
      runTask w task d
      = mkOutcome (failTask (doneAt w) task msg d).1
          (sqlSetFailed (ID task) failed (Some (doneAt w)) msg d) log cmd)
  ∨ (∃ first names log cmd,
      runTask w task d
      = mkOutcome
          (mkTask (ID task) (Filename task) success (LangIn task) (LangOut task)
             (Pages task) (Params task) (CreatedAt task) (StartedAt task)
             (Some (doneAt w)) (Error task) first (first :: names))
          (sqlSetSucceeded (ID task) success (Some (doneAt w)) first (first :: names) d)
          log cmd).
Proof.
  unfold runTask, failWith.
  destruct (logCreateOK w); cbn [negb]; [|left; by eexists _, _, _].
  destruct (resolveOpenAI w (scanParams task (baseArgs task))) as [line [args1|]];
    [|left; by eexists _, _, _].
  run_cases w task; try (left; by eexists _, _, _).
  right. by eexists _, _, _, _.
Qed.

Lemma runTask_sound w task (d : gmap string Row) :
  tableSound d → tableSound (out_db (runTask w task d)).
Proof.
  intros Hd.
  destruct (runTask_cases w task d) as [(msg & log & cmd & ->)|(f & ns & log & cmd & ->)];
    cbn [out_db].
  - by apply sqlSetFailed_sound.
  - by apply sqlSetSucceeded_sound.
Qed.

Lemma deleteTaskHandler_db method taskID (d : gmap string Row) :
  (deleteTaskHandler method taskID d).2 = d
  ∨ (deleteTaskHandler method taskID d).2 = delete taskID d.
Proof.
  unfold deleteTaskHandler.
  case_bool_decide; [by left|]. case_bool_decide; [by left|].
  destruct (d !! taskID); [by right|by left].
Qed.

Lemma step_sound s e : tableSound (db s) → tableSound (db (step s e)).
Proof.
  intros Hd. destruct e as [req io|method taskID|now|w|]; cbn [step].
  - destruct (generatedID req io) as [id|] eqn:Hid;
      [|by rewrite submit_not_generated].
    pose proof Hid as (_ & _ & h & Hf & _ & _)%generatedID_Some.
    rewrite (submit_generated req io s id h Hid Hf). cbn zeta.
    destruct (createOK io); [|done]. destruct (copyOK io); [|done]. cbn [negb].
    destruct (sqlInsert (newTask req io h) (db s)) as [d'|] eqn:Hins; [|done].
    apply sqlInsert_Some in Hins as [_ ->]. cbn [snd db].
    intros j r [[<- <-]|[_ Hr]]%lookup_insert_Some; [|by apply Hd].
    split; [done|]. split; [|split].
    + unfold rowScans. cbn. eauto.
    + cbn. eauto.
    + apply newTask_paramsKept.
  - cbn [db]. destruct (deleteTaskHandler_db method taskID (db s)) as [->| ->]; [done|].
    by apply tableSound_delete.
  - destruct (current s); [done|]. destruct (taskQueue s) as [|task rest]; [done|].
    cbn [beginTask db]. by apply sqlSetStarted_sound.
  - destruct (current s) as [task|]; [|done]. cbn [db]. by apply runTask_sound.
  - done.
Qed.

Lemma run_sound trace s : tableSound (db s) → tableSound (db (run s trace)).
Proof.
  revert s. induction trace as [|e trace IH]; intros s Hs; [done|].
  apply IH, step_sound, Hs.
Qed.

Lemma initServer_sound : tableSound (db initServer).
Proof. intros id r Hr. cbn in Hr. by rewrite lookup_empty in Hr. Qed.

(** ** C10: stored parameter maps are filtered *)

(** C10.  In every table the server can reach, by any sequence of
    submissions, deletions, worker steps and restarts, every row's
    parameter map holds only values that, once trimmed, are neither
    empty nor false nor off. *)
Theorem C10_params_filtered trace id r :
  db (run initServer trace) !! id = Some r →
  ∃ m, row_params r = Some m
       ∧ ∀ key value, (key, value) ∈ m →
           GoStrings.TrimSpace value ≠ ""
           ∧ GoStrings.TrimSpace value ≠ "false"
           ∧ GoStrings.TrimSpace value ≠ "off".
Proof.
  intros Hr.
  destruct (run_sound trace initServer initServer_sound id r Hr) as (_ & _ & [m Hm] & Hp).
  exists m. split; [done|]. intros key value Hin. exact (Hp m key value Hm Hin).
Qed.

Lemma C10_params_filtered_witness :
  ∃ m, Some [("debug", "true"); ("qps", "4")] = Some m
       ∧ ∀ key value, (key, value) ∈ m →
           GoStrings.TrimSpace value ≠ ""
           ∧ GoStrings.TrimSpace value ≠ "false"
           ∧ GoStrings.TrimSpace value ≠ "off".
Proof.
  exact (C10_params_filtered
           [EvSubmit Sample.reqMixed (Sample.io 5); EvDequeue (Sample.noon 2000);
            EvFinish (Sample.world Sample.envKey [Sample.producedFile] 9000)]
           "20240101-120000_305"
           (mkRow "20240101-120000_305" "report.pdf" success (Some "en") (Some "zh")
              (Some "1-3") (Some [("debug", "true"); ("qps", "4")]) (Sample.noon 905)
              (Some (Sample.noon 2000)) (Some (Sample.noon 9000)) None
              (Some "20240101-120000_305_report.zh.mono.pdf")
              (Some ["20240101-120000_305_report.zh.mono.pdf"]))
           eq_refl).
Defined.

(** ** C8: the listing *)

#[local] Instance createdDesc_trans : Transitive createdDesc.
Proof. unfold createdDesc. intros r1 r2 r3 H12 H23. lia. Qed.

#[local] Instance createdDesc_total : Total createdDesc.
Proof. unfold createdDesc. intros r1 r2. lia. Qed.

Lemma scanTask_Some r t :
  scanTask r = Some t →
  ID t = row_id r ∧ CreatedAt t = row_created_at r ∧ Status t = row_status r
  ∧ CompletedAt t = row_completed_at r
  ∧ OutputFiles t = default [] (row_output_files r)
  ∧ Params t = row_params r.
Proof.
  unfold scanTask.
  destruct (row_lang_in r), (row_lang_out r), (row_pages r); try done.
  by intros [= <-].
Qed.

Lemma scanTask_total r : rowScans r → is_Some (scanTask r).
Proof.
  intros ([li Hli] & [lo Hlo] & [pg Hpg]). unfold scanTask.
  rewrite Hli, Hlo, Hpg. by eexists.
Qed.

Lemma omap_total {A B} (f : A → option B) (l : list A) :
  Forall (λ x, is_Some (f x)) l → Some <$> omap f l = f <$> l.
Proof.
  induction 1 as [|x l [y Hy] _ IH]; [done|].
  cbn. rewrite Hy. cbn. by rewrite IH.
Qed.

Lemma StronglySorted_omap {A B} (R : relation A) (R' : relation B)
    (f : A → option B) (l : list A) :
  (∀ x y x' y', f x = Some x' → f y = Some y' → R x y → R' x' y') →
  StronglySorted R l → StronglySorted R' (omap f l).
Proof.
  intros Hf. induction 1 as [|x l _ IH Hx]; cbn; [constructor|].
  destruct (f x) as [x'|] eqn:Hfx; [|done].
  constructor; [done|].
  apply Forall_forall. intros y' (y & Hy & Hfy)%list_elem_of_omap.
  rewrite Forall_forall in Hx. by eapply Hf; [..|apply Hx].
Qed.

Lemma sqlSelectAll_rows (d : gmap string Row) r :
  r ∈ sqlSelectAll d ↔ ∃ id, d !! id = Some r.
Proof.
  unfold sqlSelectAll. rewrite merge_sort_Permutation, list_elem_of_fmap. split.
  - intros ([id r'] & -> & Hin). exists id. by apply elem_of_map_to_list.
  - intros [id Hr]. exists (id, r). split; [done|]. by apply elem_of_map_to_list.
Qed.

(** C8.  In every state the server can reach, the listing returns every
    stored row, each scanned into a record and none twice or missing,
    and it is ordered by creation time, most recent first. *)
Theorem C8_list_ordered trace :
  let d := db (run initServer trace) in
  (∀ id r, d !! id = Some r →
     ∃ t, scanTask r = Some t ∧ ID t = id ∧ t ∈ listTasksHandler d)
  ∧ Some <$> listTasksHandler d ≡ₚ scanTask <$> (map_to_list d).*2
  ∧ StronglySorted newerFirst (listTasksHandler d).
Proof.
  cbn zeta. set (d := db (run initServer trace)).
  assert (Hd : tableSound d) by apply run_sound, initServer_sound.
  split; [|split].
  - intros id r Hr. destruct (Hd id r Hr) as (Hid & Hscan & _).
    destruct (scanTask_total r Hscan) as [t Ht]. exists t.
    split; [done|]. split.
    + apply scanTask_Some in Ht as (-> & _). done.
    + unfold listTasksHandler. apply list_elem_of_omap. exists r.
      split; [|done]. apply sqlSelectAll_rows. by exists id.
  - unfold listTasksHandler. rewrite omap_total.
    + unfold sqlSelectAll. by rewrite merge_sort_Permutation.
    + apply Forall_forall. intros r [id Hr]%sqlSelectAll_rows.
      destruct (Hd id r Hr) as (_ & Hscan & _). by apply scanTask_total.
  - unfold listTasksHandler. apply (StronglySorted_omap createdDesc).
    + intros r1 r2 t1 t2 (_ & H1 & _)%scanTask_Some (_ & H2 & _)%scanTask_Some.
      unfold createdDesc, newerFirst. by rewrite H1, H2.
    + unfold sqlSelectAll. apply StronglySorted_merge_sort; apply _.
Qed.

(** ** C6: completion time, outputs and status *)

Lemma rowOpen_rowInv st r : st = queued ∨ st = running → rowOpen st r → rowInv r.
Proof.
  intros Hst (Hs & Hc & Ho). unfold rowInv, terminal. rewrite Hs, Hc, Ho. cbn.
  split; split; try (intros [? ?]; done); try done;
    destruct Hst as [-> | ->]; intros; try done; by destruct_or!.
Qed.

Lemma taskOpen_recordInv st t : st = queued ∨ st = running → taskOpen st t → recordInv t.
Proof.
  intros Hst (Hs & Hc & Ho). unfold recordInv, terminal. rewrite Hs, Hc, Ho.
  split; split; try (intros [? ?]; done); try done;
    destruct Hst as [-> | ->]; intros; try done; by destruct_or!.
Qed.

Lemma lifecycleInv_weaken used used' s :
  (∀ id, id ∈ used → id ∈ used') → lifecycleInv used s → lifecycleInv used' s.
Proof.
  intros Hsub (H1 & H2 & H3 & H4). split; [done|]. split; [|split; [done|]].
  - intros t Ht. destruct (H2 t Ht) as (? & ? & ?). eauto.
  - intros t Ht. destruct (H4 t Ht) as (? & ? & ? & ?). eauto.
Qed.

Lemma lifecycleInv_submit used s req io id h d' :
  lifecycleInv used s → id ∉ used →
  generatedID req io = Some id → FormFile req = Some h →
  sqlInsert (newTask req io h) (db s) = Some d' →
  lifecycleInv (id :: used)
    (mkServer d' (taskQueue s ++ [newTask req io h]) (current s)).
Proof.
  intros (H1 & H2 & H3 & H4) Hfresh Hid Hf Hins.
  pose proof Hid as (_ & _ & _ & _ & _ & Heq)%generatedID_Some.
  assert (HID : ID (newTask req io h) = id) by (by rewrite Heq).
  apply sqlInsert_Some in Hins as [_ ->]. rewrite HID.
  set (row0 := mkRow _ _ _ _ _ _ _ _ _ _ _ _ _).
  assert (Hrow0 : rowOpen queued row0) by done.
  split; [|split; [|split]]; cbn [db taskQueue current].
  - intros j r [[<- <-]|[_ Hr]]%lookup_insert_Some; [|by eapply H1].
    by eapply rowOpen_rowInv; [left|].
  - intros t [Ht| ->%list_elem_of_singleton]%elem_of_app.
    + destruct (H2 t Ht) as (Ho & Hu & Hr). split; [done|].
      split; [by apply list_elem_of_further|].
      intros r. rewrite lookup_insert_ne; [apply Hr|]. by intros ->.
    + split; [done|]. rewrite HID. split; [apply list_elem_of_here|].
      intros r. rewrite lookup_insert_eq. by intros [= <-].
  - rewrite fmap_app. apply NoDup_app. split; [done|]. split.
    + intros x Hx Hx2. cbn in Hx2. apply list_elem_of_singleton in Hx2.
      rewrite Hx2, <- Heq in Hx.
      apply list_elem_of_fmap in Hx as (t & -> & Ht).
      destruct (H2 t Ht) as (_ & Hu & _). done.
    + cbn. apply NoDup_singleton.
  - intros t Ht. destruct (H4 t Ht) as (Ho & Hu & Hn & Hr).
    split; [done|]. split; [by apply list_elem_of_further|]. split.
    + rewrite fmap_app. cbn. rewrite <- Heq.
      intros [?|Heq2%list_elem_of_singleton]%elem_of_app; [done|].
      by rewrite Heq2 in Hu.
    + intros r. rewrite lookup_insert_ne; [apply Hr|]. by intros ->.
Qed.

Lemma lifecycleInv_delete used s taskID :
  lifecycleInv used s →
  lifecycleInv used (mkServer (delete taskID (db s)) (taskQueue s) (current s)).
Proof.
  intros (H1 & H2 & H3 & H4). split; [|split; [|split]]; cbn [db taskQueue current].
  - intros j r [_ Hr]%lookup_delete_Some. by eapply H1.
  - intros t Ht. destruct (H2 t Ht) as (Ho & Hu & Hr). split; [done|]. split; [done|].
    intros r [_ Hr']%lookup_delete_Some. by apply Hr.
  - done.
  - intros t Ht. destruct (H4 t Ht) as (Ho & Hu & Hn & Hr).
    split; [done|]. split; [done|]. split; [done|].
    intros r [_ Hr']%lookup_delete_Some. by apply Hr.
Qed.

Lemma lifecycleInv_dequeue used s now task rest :
  lifecycleInv used s → current s = None → taskQueue s = task :: rest →
  lifecycleInv used
    (mkServer (beginTask now task (db s)).2 rest (Some (beginTask now task (db s)).1)).
Proof.
  intros (H1 & H2 & H3 & _) Hcur Hq. rewrite Hq in H2, H3.
  cbn [fmap list_fmap] in H3. apply NoDup_cons in H3 as [Hhead H3].
  destruct (H2 task (list_elem_of_here _ _)) as ((_ & Hc & Ho) & Hu & Hr).
  rewrite beginTask_task, beginTask_db. unfold sqlSetStarted.
  split; [|split; [|split]]; cbn [db taskQueue current].
  - intros j r'. rewrite lookup_alter_Some.
    intros [(<- & r & Hr0 & ->)|[_ Hr0]]; [|by eapply H1].
    destruct (Hr r Hr0) as (_ & Hrc & Hro).
    by apply (rowOpen_rowInv running); [right|].
  - intros t Ht. destruct (H2 t (list_elem_of_further _ _ _ Ht)) as (Hto & Htu & Htr).
    split; [done|]. split; [done|]. intros r.
    rewrite lookup_alter_ne; [apply Htr|].
    intros Heq. apply Hhead. rewrite Heq. apply list_elem_of_fmap. by exists t.
  - done.
  - intros t [= <-]. cbn [ID]. split; [done|]. split; [done|]. split; [done|].
    intros r'. rewrite lookup_alter_Some.
    intros [(_ & r & Hr0 & ->)|[Hne _]]; [|done].
    destruct (Hr r Hr0) as (_ & Hrc & Hro). done.
Qed.

Lemma lifecycleInv_finish used s w task :
  lifecycleInv used s → current s = Some task →
  lifecycleInv used (mkServer (out_db (runTask w task (db s))) (taskQueue s) None).
Proof.
  intros (H1 & H2 & H3 & H4) Hcur.
  destruct (H4 task Hcur) as (_ & _ & Hn & Hr).
  assert (Hrows : ∀ j r', out_db (runTask w task (db s)) !! j = Some r' →
            (j = ID task ∧ rowInv r') ∨ (j ≠ ID task ∧ db s !! j = Some r')).
  { intros j r'.
    destruct (runTask_cases w task (db s))
      as [(msg & log & cmd & ->)|(first & names & log & cmd & ->)]; cbn [out_db];
      unfold sqlSetFailed, sqlSetSucceeded; rewrite lookup_alter_Some;
      (intros [(<- & r & Hr0 & ->)|[Hne Hr0]]; [left|right; by split]);
      (split; [done|]); destruct (Hr r Hr0) as (_ & Hrc & Hro);
      unfold rowInv, terminal; cbn.
    - rewrite Hro. cbn. split; split; try done; eauto.
    - split; split; try done; eauto. }
  split; [|split; [|split]]; cbn [db taskQueue current].
  - intros j r' [[_ ?]|[_ ?]]%Hrows; [done|by eapply H1].
  - intros t Ht. destruct (H2 t Ht) as (Hto & Htu & Htr).
    split; [done|]. split; [done|].
    intros r' [[Heq _]|[_ ?]]%Hrows; [|by apply Htr].
    exfalso. apply Hn. rewrite <- Heq. apply list_elem_of_fmap. by exists t.
  - done.
  - done.
Qed.

Lemma lifecycleInv_step used s e :
  lifecycleInv used s →
  (∀ id, eventID e = Some id → id ∉ used) →
  lifecycleInv (option_list (eventID e) ++ used) (step s e).
Proof.
  intros Hinv Hfresh.
  destruct e as [req io|method taskID|now|w|]; cbn [step eventID option_list app].
  - destruct (generatedID req io) as [id|] eqn:Hid; cbn [option_list app];
      [|by rewrite submit_not_generated].
    pose proof Hid as (_ & _ & h & Hf & _ & _)%generatedID_Some.
    assert (Hweak : lifecycleInv (id :: used) s).
    { eapply lifecycleInv_weaken; [|done]. intros. by apply list_elem_of_further. }
    rewrite (submit_generated req io s id h Hid Hf). cbn zeta.
    destruct (createOK io); [|done]. destruct (copyOK io); [|done]. cbn [negb].
    destruct (sqlInsert (newTask req io h) (db s)) as [d'|] eqn:Hins; [|done].
    cbn [snd]. eapply lifecycleInv_submit; eauto.
  - destruct (deleteTaskHandler_db method taskID (db s)) as [->| ->].
    + by destruct s.
    + by apply lifecycleInv_delete.
  - destruct (current s) eqn:Hcur; [done|].
    destruct (taskQueue s) as [|task rest] eqn:Hq; [done|].
    pose proof (lifecycleInv_dequeue used s now task rest Hinv Hcur Hq) as H.
    by destruct (beginTask now task (db s)).
  - destruct (current s) as [task|] eqn:Hcur; [|done].
    by apply lifecycleInv_finish.
  - destruct Hinv as (H1 & _). split; [done|]. cbn [taskQueue current].
    split; [by intros t ?%elem_of_nil|]. split; [constructor|done].
Qed.

Lemma lifecycleInv_run trace used s :
  lifecycleInv used s →
  NoDup (omap eventID trace) →
  (∀ id, id ∈ omap eventID trace → id ∉ used) →
  ∃ used', lifecycleInv used' (run s trace).
Proof.
  revert used s. induction trace as [|e trace IH]; intros used s Hinv Hnd Hfresh.
  - by exists used.
  - cbn [omap list_omap] in Hnd, Hfresh.
    apply (IH (option_list (eventID e) ++ used)).
    + apply lifecycleInv_step; [done|]. intros id Hid. rewrite Hid in Hfresh.
      apply Hfresh, list_elem_of_here.
    + destruct (eventID e); [by apply NoDup_cons in Hnd as [_ ?]|done].
    + intros id Hin. destruct (eventID e) as [id'|]; cbn [option_list app].
      * apply NoDup_cons in Hnd as [Hid' _].
        apply not_elem_of_cons. split; [by intros ->|].
        by apply Hfresh, list_elem_of_further.
      * by apply Hfresh.
Qed.

Lemma lifecycleInv_init : lifecycleInv [] initServer.
Proof.
  split; [|split; [|split]]; cbn.
  - intros id r Hr. by rewrite lookup_empty in Hr.
  - by intros t ?%elem_of_nil.
  - constructor.
  - done.
Qed.

Lemma rowInv_recordInv r t : scanTask r = Some t → rowInv r → recordInv t.
Proof.
  intros (_ & _ & Hs & Hc & Ho & _)%scanTask_Some. unfold rowInv, recordInv.
  by rewrite Hs, Hc, Ho.
Qed.

Lemma runTask_recordInv w task d :
  taskOpen running task → recordInv (out_task (runTask w task d)).
Proof.
  intros (_ & _ & Ho).
  destruct (runTask_cases w task d)
    as [(msg & log & cmd & ->)|(first & names & log & cmd & ->)];
    unfold recordInv, terminal; cbn; rewrite ?Ho; split; split; try done; eauto.
Qed.

Lemma tasksOpen_step s e : tasksOpen s → tasksOpen (step s e).
Proof.
  intros Hs. pose proof Hs as [Hq Hc].
  destruct e as [req io|method taskID|now|w|]; cbn [step].
  - destruct (generatedID req io) as [id|] eqn:Hid;
      [|by rewrite submit_not_generated].
    pose proof Hid as (_ & _ & h & Hf & _ & _)%generatedID_Some.
    rewrite (submit_generated req io s id h Hid Hf). cbn zeta.
    destruct (createOK io); [|exact Hs]. destruct (copyOK io); [|exact Hs]. cbn [negb].
    destruct (sqlInsert (newTask req io h) (db s)) as [d'|]; [|exact Hs].
    split; cbn [snd taskQueue current]; [|exact Hc].
    intros t [Ht| ->%list_elem_of_singleton]%elem_of_app; [by apply Hq|done].
  - split; cbn [taskQueue current]; [exact Hq|exact Hc].
  - destruct (current s) eqn:Hcur; [exact Hs|].
    destruct (taskQueue s) as [|task rest] eqn:Hq'; [exact Hs|].
    destruct (Hq task (list_elem_of_here _ _)) as (_ & Hc' & Ho).
    split; cbn [beginTask taskQueue current].
    + intros t Ht. by apply Hq, list_elem_of_further.
    + by intros t [= <-].
  - destruct (current s); [|exact Hs].
    split; cbn [taskQueue current]; [exact Hq|done].
  - split; cbn [taskQueue current]; [by intros t ?%elem_of_nil|done].
Qed.

Lemma tasksOpen_run trace s : tasksOpen s → tasksOpen (run s trace).
Proof.
  revert s. induction trace as [|e trace IH]; intros s Hs; [done|].
  apply IH, tasksOpen_step, Hs.
Qed.

Lemma tasksOpen_init : tasksOpen initServer.
Proof. split; cbn; [by intros t ?%elem_of_nil|done]. Qed.

(** C6 (amended).  In every state the server can reach, the records it
    holds in memory (the tasks waiting in the queue, the task the worker
    is running, and that task as the worker leaves it whichever way the
    run goes) have a completion time exactly when their status is
    success or failed, and a non-empty output list exactly when their
    status is success.  The stored records, as the listing returns them,
    satisfy the same along every run in which no identifier is generated
    twice. *)
Theorem C6_record_invariant trace :
  let s := run initServer trace in
  (∀ t, t ∈ taskQueue s → recordInv t)
  ∧ (∀ t, current s = Some t →
       recordInv t ∧ ∀ w, recordInv (out_task (runTask w t (db s))))
  ∧ (NoDup (omap eventID trace) →
     ∀ t, t ∈ listTasksHandler (db s) → recordInv t).
Proof.
  cbn zeta.
  destruct (tasksOpen_run trace initServer tasksOpen_init) as [Hq Hc].
  split; [|split].
  - intros t Ht. by apply (taskOpen_recordInv queued); [left|apply Hq].
  - intros t Ht. split.
    + by apply (taskOpen_recordInv running); [right|apply Hc].
    + intros w. by apply runTask_recordInv, Hc.
  - intros Hnd.
    destruct (lifecycleInv_run trace [] initServer lifecycleInv_init Hnd)
      as (used & H1 & _); [by intros ? _ ?%elem_of_nil|].
    intros t (r & [id Hr]%sqlSelectAll_rows & Ht)%list_elem_of_omap.
    eapply rowInv_recordInv; [done|]. by eapply H1.
Qed.

(** C6 as stated fails.  A job is submitted and started; it is deleted
    and, within the same second, a submission generates its identifier
    again.  When the child of the first job exits with an error, the
    worker's UPDATE lands on the second job's row, and once the second
    job is started that row is running with a completion time. *)
Lemma C6_counterexample :
  let s := run initServer
             [EvSubmit Sample.reqPlain (Sample.io 5);
              EvDequeue (Sample.noon 2000);
              EvDelete "DELETE" "20240101-120000_305";
              EvSubmit Sample.reqPlain (Sample.io 400000005);
              EvFinish Sample.worldFailing;
              EvDequeue Sample.laterStill] in
  (λ t, (ID t, Status t, CreatedAt t, CompletedAt t)) <$> listTasksHandler (db s)
  = [("20240101-120000_305", running, Sample.noon 400000905, Some Sample.later)]
  ∧ ∃ t, t ∈ listTasksHandler (db s) ∧ ¬ recordInv t.
Proof.
  cbn zeta. split; [vm_compute; reflexivity|].
  eexists. split; [vm_compute; apply list_elem_of_here|].
  intros [Hc _]. cbn in Hc. destruct Hc as [Hc _].
  destruct (Hc (mk_is_Some _ _ eq_refl)) as [?|?]; done.
Qed.

Lemma C6_record_invariant_witness : recordInv Sample.finishedTask.
Proof.
  refine (proj2 (proj2 (C6_record_invariant
                          [EvSubmit Sample.reqPlain (Sample.io 5);
                           EvDequeue (Sample.noon 2000);
                           EvFinish Sample.worldSlow])) _ Sample.finishedTask _).
  - vm_compute. apply NoDup_singleton.
  - vm_compute. apply list_elem_of_here.
Defined.

Lemma C8_list_ordered_witness :
  let d := db (run initServer
                 [EvSubmit Sample.reqPlain (Sample.io 5);
                  EvSubmit Sample.reqOther (Sample.io 7777);
                  EvDequeue (Sample.noon 9000)]) in
  ID <$> listTasksHandler d = ["20240101-120000_8077"; "20240101-120000_305"]
  ∧ StronglySorted newerFirst (listTasksHandler d).
Proof.
  split; [reflexivity|].
  exact (proj2 (proj2 (C8_list_ordered
                         [EvSubmit Sample.reqPlain (Sample.io 5);
                          EvSubmit Sample.reqOther (Sample.io 7777);
                          EvDequeue (Sample.noon 9000)]))).
Defined.

(** * Further properties of the handlers and the worker *)

(** ** Submission *)

(** X1.  A submission that is answered with an error leaves the server
    as it was and leaves no file behind: either nothing was written, or
    the upload was created and removed again. *)
Theorem X1_submit_error_leaves_nothing req io s code msg ops s' :
  submitTaskHandler req io s = (ReplyError code msg, ops, s') →
  s' = s ∧ (ops = [] ∨ ∃ path, ops = [FsCreate path; FsRemove path]).
Proof.
  unfold submitTaskHandler. repeat case_match; intros [= <- <- <- <-]; eauto.
Qed.

Lemma X1_submit_error_leaves_nothing_witness :
  (submitTaskHandler Sample.reqText (Sample.io 5) initServer).2 = initServer
  ∧ ((submitTaskHandler Sample.reqText (Sample.io 5) initServer).1.2 = []
     ∨ ∃ path, (submitTaskHandler Sample.reqText (Sample.io 5) initServer).1.2
               = [FsCreate path; FsRemove path]).
Proof.
  exact (X1_submit_error_leaves_nothing Sample.reqText (Sample.io 5) initServer
           400 "Only PDF files are allowed" [] initServer eq_refl).
Defined.

Lemma genTaskID_nonempty ts now : genTaskID ts now ≠ "".
Proof.
  unfold genTaskID. intros H. apply (f_equal bytes) in H.
  rewrite bytes_app in H. apply app_eq_nil in H as [_ H]. done.
Qed.

Lemma scanTask_inserted task :
  Error task = "" → OutputFile task = "" → OutputFiles task = [] →
  StartedAt task = None → CompletedAt task = None →
  scanTask (mkRow (ID task) (Filename task) (Status task) (Some (LangIn task))
              (Some (LangOut task)) (Some (Pages task)) (Params task) (CreatedAt task)
              None None None None None) = Some task.
Proof. destruct task. cbn. by intros -> -> -> -> ->. Qed.

(** X2.  An accepted submission is in the store at once: the detail
    endpoint returns, under the identifier of the reply, the very task
    that was put at the end of the queue; it is queued, has no start or
    completion time, no error and no outputs, and both languages are
    non-empty.  The identifier was not in the table before, and no other
    row changed. *)
Theorem X2_submit_then_detail req io s id ops s' :
  submitTaskHandler req io s = (ReplyAccepted id, ops, s') →
  ∃ task,
    taskDetailHandler id (db s') = DetailTask task
    ∧ taskQueue s' = taskQueue s ++ [task]
    ∧ ID task = id ∧ Status task = queued
    ∧ StartedAt task = None ∧ CompletedAt task = None
    ∧ Error task = "" ∧ OutputFiles task = []
    ∧ LangIn task ≠ "" ∧ LangOut task ≠ ""
    ∧ db s !! id = None
    ∧ ∀ id', id' ≠ id → db s' !! id' = db s !! id'.
Proof.
  intros Hsub.
  destruct (generatedID req io) as [id'|] eqn:Hid.
  - pose proof Hid as (_ & _ & h & Hf & _ & ->)%generatedID_Some.
    rewrite (submit_generated req io s _ h Hid Hf) in Hsub. cbn zeta in Hsub.
    destruct (createOK io); [|done]. destruct (copyOK io); [|done]. cbn [negb] in Hsub.
    destruct (sqlInsert (newTask req io h) (db s)) as [d|] eqn:Hins; [|done].
    injection Hsub as <- <- <-.
    apply sqlInsert_Some in Hins as [Hnone ->].
    exists (newTask req io h). cbn [db taskQueue].
    split; [|repeat split; try done].
    + unfold taskDetailHandler.
      rewrite bool_decide_eq_false_2 by apply genTaskID_nonempty.
      change (genTaskID _ _) with (ID (newTask req io h)).
      rewrite lookup_insert_eq. by rewrite scanTask_inserted.
    + cbn. case_bool_decide; done.
    + cbn. case_bool_decide; done.
    + intros id' Hne. by rewrite lookup_insert_ne.
  - exfalso. revert Hsub Hid. unfold submitTaskHandler, generatedID.
    case_bool_decide; [done|].
    destruct (multipartOK req); [|done].
    destruct (FormFile req) as [h|]; [|done].
    by destruct (GoStrings.HasSuffix (GoStrings.ToLower h) ".pdf").
Qed.

Lemma X2_submit_then_detail_witness :
  ∃ task,
    taskDetailHandler "20240101-120000_305" (db (Sample.submitted Sample.reqPlain 5))
    = DetailTask task
    ∧ Status task = queued ∧ LangIn task ≠ "".
Proof.
  destruct (X2_submit_then_detail Sample.reqPlain (Sample.io 5) initServer
              "20240101-120000_305"
              [FsCreate "/tmp/babeldoc/uploads/20240101-120000_report.pdf"]
              (Sample.submitted Sample.reqPlain 5) eq_refl)
    as (task & Hd & _ & _ & Hs & _ & _ & _ & _ & Hl & _).
  exists task. split; [exact Hd|]. split; [exact Hs|exact Hl].
Defined.

Lemma mapSet_elem m key value k v :
  (k, v) ∈ mapSet m key value → (k, v) = (key, value) ∨ (k, v) ∈ m.
Proof.
  induction m as [|[k0 v0] m IH]; simpl.
  - intros ->%list_elem_of_singleton. by left.
  - case_bool_decide as Heq.
    + subst k0. rewrite !elem_of_cons. intros [?|?]; eauto.
    + rewrite !elem_of_cons. intros [?|Hin]; [by eauto|].
      destruct (IH Hin); eauto.
Qed.

Lemma mapSet_keys m key value k :
  k ∈ (mapSet m key value).*1 → k = key ∨ k ∈ m.*1.
Proof.
  intros ([k' v] & -> & Hin)%list_elem_of_fmap.
  apply mapSet_elem in Hin as [[= -> ->]|Hin]; [by left|].
  right. apply list_elem_of_fmap. by exists (k', v).
Qed.

Lemma mapSet_NoDup m key value : NoDup m.*1 → NoDup (mapSet m key value).*1.
Proof.
  induction m as [|[k0 v0] m IH]; simpl; intros Hnd.
  - apply NoDup_singleton.
  - apply NoDup_cons in Hnd as [Hk0 Hnd]. case_bool_decide as Heq; cbn.
    + by apply NoDup_cons.
    + apply NoDup_cons. split; [|by apply IH].
      intros [->|Hin]%mapSet_keys; done.
Qed.

Lemma collectParams_inv form0 form acc :
  (∀ e, e ∈ form → e ∈ form0) →
  NoDup acc.*1 ∧ (∀ key value, (key, value) ∈ acc → storedEntry form0 key value) →
  NoDup (foldl collectParam acc form).*1
  ∧ ∀ key value, (key, value) ∈ foldl collectParam acc form → storedEntry form0 key value.
Proof.
  revert acc. induction form as [|[key values] form IH]; intros acc Hsub Hacc; [done|].
  cbn [foldl]. apply IH; [intros e He; by apply Hsub, list_elem_of_further|].
  destruct Hacc as [Hnd Hall]. unfold collectParam.
  destruct values as [|v0 rest]; [done|].
  case_bool_decide as Hkey; [|done].
  case_bool_decide as Hval; [|done].
  split; [by apply mapSet_NoDup|].
  intros k v [[= -> ->]|Hin]%mapSet_elem; [|by apply Hall].
  destruct Hkey as (K1 & K2 & K3 & K4). destruct Hval as (V1 & V2 & V3).
  split; [|split; [|split]].
  - unfold reservedKeys. rewrite !not_elem_of_cons.
    repeat split; try done. apply not_elem_of_nil.
  - apply TrimSpace_idemp.
  - rewrite !not_elem_of_cons. repeat split; try done. apply not_elem_of_nil.
  - exists v0, rest. split; [|done]. apply Hsub, list_elem_of_here.
Qed.

Lemma collectParams_stored form :
  NoDup (collectParams form).*1
  ∧ ∀ key value, (key, value) ∈ collectParams form → storedEntry form key value.
Proof.
  unfold collectParams. apply collectParams_inv; [done|].
  split; [constructor|]. by intros key value ?%elem_of_nil.
Qed.

(** X3.  The parameter map that a submission stores has distinct keys;
    none of them is file, lang_in, lang_out or pages; every value is the
    trimmed first value of the form field of that name, is left alone by
    further trimming, and is not empty, false or off. *)
Theorem X3_stored_params form :
  NoDup (collectParams form).*1
  ∧ ∀ key value, (key, value) ∈ collectParams form → storedEntry form key value.
Proof. apply collectParams_stored. Qed.

(** X4.  No parameter stored at submission is dropped or altered by the
    worker: in the loop of [processTask] a stored entry emits the bare
    flag when its value is true or on, and the flag followed by the
    stored value otherwise. *)
Theorem X4_stored_params_reach_command_line form key value :
  (key, value) ∈ collectParams form →
  paramArgs key value
  = if bool_decide (value = "true" ∨ value = "on") then ["--" +:+ key]
    else ["--" +:+ key; value].
Proof.
  intros Hin. destruct (collectParams_stored form) as [_ Hall].
  destruct (Hall key value Hin) as (_ & Htrim & Hval & _).
  unfold paramArgs. cbn zeta. rewrite Htrim.
  rewrite !not_elem_of_cons in Hval. destruct Hval as (V1 & V2 & V3 & _).
  rewrite bool_decide_eq_true_2 by done.
  case_bool_decide; [done|]. by rewrite bool_decide_eq_true_2.
Qed.

Lemma X4_stored_params_reach_command_line_witness :
  paramArgs "qps" "4" = ["--qps"; "4"].
Proof.
  refine (X4_stored_params_reach_command_line Sample.formMixed "qps" "4" _).
  vm_compute. in_list.
Defined.

(** ** The worker on one task *)

Lemma alter_absent (f : Row → Row) id (d : gmap string Row) :
  d !! id = None → alter f id d = d.
Proof.
  intros Hnone. apply map_eq. intros j. rewrite lookup_alter.
  destruct (decide (id = j)) as [<-|]; [|done]. by rewrite Hnone.
Qed.

Lemma moveOutputs_names w taskID files :
  (moveOutputs w taskID files).1 = finalName taskID <$> filter (renamed w) files.
Proof.
  induction files as [|file files IH]; [done|].
  cbn [moveOutputs]. destruct (moveOutputs w taskID files) as [names lines].
  cbn [fst] in IH. rewrite filter_cons.
  destruct (decide (renamed w file)) as [Hr|Hr]; unfold renamed in Hr.
  - rewrite Hr. cbn. by rewrite IH.
  - by destruct (renameErr w file).
Qed.

Lemma moveOutputs_logged w taskID files name :
  name ∈ (moveOutputs w taskID files).1 →
  ("==> 生成文件: " +:+ name +:+ LF) ∈ (moveOutputs w taskID files).2.
Proof.
  induction files as [|file files IH]; [by intros ?%elem_of_nil|].
  cbn [moveOutputs]. destruct (moveOutputs w taskID files) as [names lines].
  cbn [fst snd] in IH.
  destruct (renameErr w file); cbn [fst snd].
  - intros Hin. by apply list_elem_of_further, IH.
  - intros [->|Hin]%elem_of_cons; [apply list_elem_of_here|].
    by apply list_elem_of_further, IH.
Qed.

(** X5.  [processTask] never leaves a task queued or running: whatever
    the surroundings answer, the task ends as success or failed, with
    the start time of the first clock reading and the completion time of
    the last; what the submission recorded (identifier, filename,
    languages, pages, parameters, creation time) is not touched. *)
Theorem X5_processTask_ends_terminal now w task d :
  let o := processTask now w task d in
  terminal (Status (out_task o))
  ∧ StartedAt (out_task o) = Some now
  ∧ CompletedAt (out_task o) = Some (doneAt w)
  ∧ ID (out_task o) = ID task ∧ Filename (out_task o) = Filename task
  ∧ LangIn (out_task o) = LangIn task ∧ LangOut (out_task o) = LangOut task
  ∧ Pages (out_task o) = Pages task ∧ Params (out_task o) = Params task
  ∧ CreatedAt (out_task o) = CreatedAt task.
Proof.
  cbn zeta. rewrite processTask_unfold.
  set (task' := (beginTask now task d).1). set (d' := (beginTask now task d).2).
  destruct (runTask_cases w task' d')
    as [(msg & log & cmd & ->)|(first & names & log & cmd & ->)];
    unfold terminal; cbn; repeat split; eauto.
Qed.


(** X7.  When a task ends as success, its output list is made of the
    files matched by the glob whose rename succeeded, in the order of
    the glob, each under the name identifier, underscore, base name; a
    file whose rename failed is skipped and the others are kept.  The
    single output file is the first of the list, and each name of the
    list has its line in the log. *)
Theorem X7_outputs_finalized now w task d files :
  Status (out_task (processTask now w task d)) = success →
  globResult w = Some files →
  let o := processTask now w task d in
  OutputFiles (out_task o) = finalName (ID task) <$> filter (renamed w) files
  ∧ OutputFile (out_task o) = hd "" (OutputFiles (out_task o))
  ∧ ∀ name, name ∈ OutputFiles (out_task o) →
      ("==> 生成文件: " +:+ name +:+ LF) ∈ out_log o.
Proof.
  cbn zeta. rewrite processTask_unfold.
  set (task' := (beginTask now task d).1). set (d' := (beginTask now task d).2).
  unfold runTask, failWith.
  destruct (logCreateOK w); cbn [negb]; [|done].
  destruct (resolveOpenAI w (scanParams task' (baseArgs task'))) as [line [args1|]];
    [|done].
  destruct (startErr w) as [err|]; [done|].
  destruct (waitErr w) as [err|]; [done|].
  destruct (globResult w) as [[|file fs]|]; [done| |done].
  pose proof (moveOutputs_names w (ID task') (file :: fs)) as Hnames.
  pose proof (moveOutputs_logged w (ID task') (file :: fs)) as Hlogged.
  destruct (moveOutputs w (ID task') (file :: fs)) as [[|first names] lines];
    cbn [fst snd] in Hnames, Hlogged; [done|].
  intros _ [= <-]. cbn [out_task out_log OutputFiles OutputFile].
  split; [exact Hnames|]. split; [done|].
  intros name Hin. rewrite !elem_of_app. right. left. by apply Hlogged.
Qed.

Lemma X7_outputs_finalized_witness :
  OutputFiles (out_task (processTask (Sample.noon 2000) Sample.worldPartial
                           (Sample.taskOf Sample.reqPlain 5)
                           (db (Sample.submitted Sample.reqPlain 5))))
  = ["20240101-120000_305_report.zh.dual.pdf"].
Proof.
  destruct (X7_outputs_finalized (Sample.noon 2000) Sample.worldPartial
              (Sample.taskOf Sample.reqPlain 5) (db (Sample.submitted Sample.reqPlain 5))
              ["/tmp/babeldoc/outputs/20240101-120000_305/report.zh.mono.pdf";
               "/tmp/babeldoc/outputs/20240101-120000_305/report.zh.dual.pdf"]
              eq_refl eq_refl) as [H _].
  exact H.
Defined.

(** X8.  [processTask] writes to the row of its own task only; every
    other row is as before, and when the task's row is gone (the job was
    deleted meanwhile) the table is left as it is: a late update does
    not bring a deleted job back.  When the row is there it ends with
    the task's status and completion time and the first clock reading as
    start time. *)
Theorem X8_processTask_own_row_only now w task (d : gmap string Row) :
  let o := processTask now w task d in
  (∀ id', id' ≠ ID task → out_db o !! id' = d !! id')
  ∧ (d !! ID task = None → out_db o = d)
  ∧ (∀ r, d !! ID task = Some r →
       ∃ r', out_db o !! ID task = Some r'
             ∧ row_status r' = Status (out_task o)
             ∧ row_started_at r' = Some now
             ∧ row_completed_at r' = CompletedAt (out_task o)
             ∧ row_filename r' = row_filename r
             ∧ row_params r' = row_params r
             ∧ row_created_at r' = row_created_at r).
Proof.
  cbn zeta. rewrite processTask_unfold, beginTask_db.
  set (task' := (beginTask now task d).1).
  change (ID task) with (ID task').
  destruct (runTask_cases w task' (sqlSetStarted (ID task') running (Some now) d))
    as [(msg & log & cmd & ->)|(first & names & log & cmd & ->)];
    cbn [out_db out_task failTask fst Status CompletedAt];
    unfold sqlSetFailed, sqlSetSucceeded, sqlSetStarted.
  - split; [|split].
    + intros id' Hne. by rewrite !lookup_alter_ne.
    + intros Hnone. by rewrite !alter_absent by (by rewrite ?alter_absent).
    + intros r Hr. eexists. split; [rewrite !lookup_alter_eq, Hr; reflexivity|].
      cbn. by repeat split.
  - split; [|split].
    + intros id' Hne. by rewrite !lookup_alter_ne.
    + intros Hnone. by rewrite !alter_absent by (by rewrite ?alter_absent).
    + intros r Hr. eexists. split; [rewrite !lookup_alter_eq, Hr; reflexivity|].
      cbn. by repeat split.
Qed.

(** X9.  Why a job fails, in the order the worker checks: when the log
    file cannot be created the job fails with that error, nothing is
    logged and no child is started; when the child cannot be started,
    or exits with an error, the job fails with the text of that error
    and what lies in the workspace is not collected; when files are matched
    but none can be moved, the job fails with the cannot-save error. *)
Theorem X9_failure_causes now w task d :
  let o := processTask now w task d in
  (logCreateOK w = false →
     Status (out_task o) = failed ∧ Error (out_task o) = errNoLogFile
     ∧ out_log o = [] ∧ out_cmd o = None)
  ∧ (∀ cmd err, out_cmd o = Some cmd → startErr w = Some err →
       Status (out_task o) = failed ∧ Error (out_task o) = err
       ∧ OutputFiles (out_task o) = OutputFiles task)
  ∧ (∀ cmd err, out_cmd o = Some cmd → startErr w = None → waitErr w = Some err →
       Status (out_task o) = failed ∧ Error (out_task o) = err
       ∧ OutputFiles (out_task o) = OutputFiles task)
  ∧ (∀ cmd files, out_cmd o = Some cmd → startErr w = None → waitErr w = None →
       globResult w = Some files → files ≠ [] →
       (∀ file, file ∈ files → ¬ renamed w file) →
       Status (out_task o) = failed ∧ Error (out_task o) = errNoSavedOutput).
Proof.
  cbn zeta. rewrite processTask_unfold.
  set (task' := (beginTask now task d).1). set (d' := (beginTask now task d).2).
  split; [|split; [|split]].
  - intros Hlog. unfold runTask, failWith. by rewrite Hlog.
  - intros [cmdargs env] err Hcmd Hstart.
    apply runTask_cmd in Hcmd as (Hlog & _ & line & args1 & _ & Hres & _ & _).
    unfold runTask, failWith. by rewrite Hlog, Hres, Hstart.
  - intros [cmdargs env] err Hcmd Hstart Hwait.
    apply runTask_cmd in Hcmd as (Hlog & _ & line & args1 & _ & Hres & _ & _).
    unfold runTask, failWith. by rewrite Hlog, Hres, Hstart, Hwait.
  - intros [cmdargs env] files Hcmd Hstart Hwait Hglob Hne Hnone.
    apply runTask_cmd in Hcmd as (Hlog & _ & line & args1 & _ & Hres & _ & _).
    unfold runTask, failWith. rewrite Hlog, Hres, Hstart, Hwait, Hglob.
    destruct files as [|file files]; [done|].
    pose proof (moveOutputs_names w (ID task') (file :: files)) as Hnames.
    destruct (moveOutputs w (ID task') (file :: files)) as [[|first names] lines];
      cbn [fst] in Hnames; [done|].
    exfalso.
    destruct (filter (renamed w) (file :: files)) as [|f fs] eqn:Hfil; [done|].
    assert (f ∈ filter (renamed w) (file :: files)) as [Hren Hin]%list_elem_of_filter
      by (rewrite Hfil; apply list_elem_of_here).
    by apply (Hnone f).
Qed.

(** ** Deletion *)

Lemma deleteTaskHandler_found taskID (d : gmap string Row) r :
  taskID ≠ "" → d !! taskID = Some r →
  ∃ ops, deleteTaskHandler "DELETE" taskID d = (ReplyDeleted, ops, delete taskID d)
         ∧ FsRemove (Filepath.Join
                       [uploadDir;
                        hd "" (GoStrings.Split taskID "_") +:+ "_" +:+ row_filename r]) ∈ ops
         ∧ FsRemove (logPath taskID) ∈ ops
         ∧ FsRemoveAll (Filepath.Join [outputDir; taskID]) ∈ ops
         ∧ ∀ name, name ∈ default [] (row_output_files r) →
             FsRemove (Filepath.Join [outputDir; name]) ∈ ops.
Proof.
  intros Hne Hr. unfold deleteTaskHandler.
  rewrite bool_decide_eq_false_2 by (by intros ?).
  rewrite bool_decide_eq_false_2 by done. rewrite Hr.
  eexists. split; [reflexivity|]. split; [|split; [|split]].
  - apply list_elem_of_here.
  - rewrite !elem_of_app. right. right. right. unfold logPath. in_list.
  - rewrite !elem_of_app. right. right. right. in_list.
  - intros name Hin. rewrite !elem_of_app. right. right. left.
    apply list_elem_of_fmap. by exists name.
Qed.

Lemma deleteTaskHandler_missing taskID (d : gmap string Row) :
  taskID ≠ "" → d !! taskID = None →
  deleteTaskHandler "DELETE" taskID d = (ReplyError 404 "Task not found", [], d).
Proof.
  intros Hne Hr. unfold deleteTaskHandler.
  rewrite bool_decide_eq_false_2 by (by intros ?).
  rewrite bool_decide_eq_false_2 by done. by rewrite Hr.
Qed.

Lemma listTasksHandler_elem (d : gmap string Row) t :
  t ∈ listTasksHandler d ↔ ∃ id r, d !! id = Some r ∧ scanTask r = Some t.
Proof.
  unfold listTasksHandler. rewrite list_elem_of_omap. split.
  - intros (r & [id Hr]%sqlSelectAll_rows & Ht). eauto.
  - intros (id & r & Hr & Ht). exists r. split; [|done].
    apply sqlSelectAll_rows. eauto.
Qed.

(** X10.  In every table the server can reach, a DELETE request for an
    identifier removes that record and no other: afterwards the detail
    endpoint answers 404 for it and the listing holds exactly the other
    records.  The reply is success when the record was there and 404,
    with nothing changed and no file touched, when it was not; a second
    DELETE is answered 404. *)
Theorem X10_delete_removes_record trace taskID :
  taskID ≠ "" →
  let d := db (run initServer trace) in
  let res := deleteTaskHandler "DELETE" taskID d in
  taskDetailHandler taskID res.2 = DetailError 404 "Task not found"
  ∧ (∀ t, t ∈ listTasksHandler res.2 ↔ t ∈ listTasksHandler d ∧ ID t ≠ taskID)
  ∧ (is_Some (d !! taskID) → res.1.1 = ReplyDeleted)
  ∧ (d !! taskID = None → res = (ReplyError 404 "Task not found", [], d))
  ∧ deleteTaskHandler "DELETE" taskID res.2 = (ReplyError 404 "Task not found", [], res.2).
Proof.
  intros Hne. cbn zeta. set (d := db (run initServer trace)).
  assert (Hd : tableSound d) by apply run_sound, initServer_sound.
  assert (Hres : (deleteTaskHandler "DELETE" taskID d).2 = delete taskID d).
  { destruct (d !! taskID) as [r|] eqn:Hr.
    - by destruct (deleteTaskHandler_found taskID d r Hne Hr) as (ops & -> & _).
    - rewrite deleteTaskHandler_missing by done. cbn. by rewrite delete_id. }
  rewrite Hres. split; [|split; [|split; [|split]]].
  - unfold taskDetailHandler. rewrite bool_decide_eq_false_2 by done.
    by rewrite lookup_delete_eq.
  - intros t. rewrite !listTasksHandler_elem. split.
    + intros (id & r & [Hid Hr]%lookup_delete_Some & Ht). split; [by eauto|].
      destruct (Hd id r Hr) as (Hrid & _).
      apply scanTask_Some in Ht as (-> & _). by rewrite Hrid.
    + intros [(id & r & Hr & Ht) Hid]. exists id, r. split; [|done].
      apply lookup_delete_Some. split; [|done].
      destruct (Hd id r Hr) as (Hrid & _).
      apply scanTask_Some in Ht as (Hrt & _). intros ->. apply Hid. by rewrite Hrt.
  - intros [r Hr].
    by destruct (deleteTaskHandler_found taskID d r Hne Hr) as (ops & -> & _).
  - intros Hr. by apply deleteTaskHandler_missing.
  - apply deleteTaskHandler_missing; [done|]. by rewrite lookup_delete_eq.
Qed.

Lemma X10_delete_removes_record_witness :
  taskDetailHandler "20240101-120000_305"
    (deleteTaskHandler "DELETE" "20240101-120000_305"
       (db (run initServer [EvSubmit Sample.reqPlain (Sample.io 5)]))).2
  = DetailError 404 "Task not found".
Proof.
  refine (proj1 (X10_delete_removes_record [EvSubmit Sample.reqPlain (Sample.io 5)]
                   "20240101-120000_305" _)).
  discriminate.
Defined.

(** The task's row after [processTask], when it was there before. *)
Lemma processTask_row now w task (d : gmap string Row) r :
  d !! ID task = Some r →
  let o := processTask now w task d in
  ∃ r', out_db o !! ID task = Some r'
        ∧ row_filename r' = row_filename r
        ∧ row_status r' = Status (out_task o)
        ∧ (Status (out_task o) = failed
           ∧ row_output_files r' = row_output_files r
           ∧ row_output_file r' = row_output_file r
           ∧ OutputFiles (out_task o) = OutputFiles task
           ∨ Status (out_task o) = success
             ∧ row_output_files r' = Some (OutputFiles (out_task o))
             ∧ row_output_file r' = Some (OutputFile (out_task o))
             ∧ OutputFiles (out_task o) ≠ []).
Proof.
  intros Hr. cbn zeta. rewrite processTask_unfold, beginTask_db.
  set (task' := (beginTask now task d).1).
  change (ID task) with (ID task') in Hr |- *.
  destruct (runTask_cases w task' (sqlSetStarted (ID task') running (Some now) d))
    as [(msg & log & cmd & ->)|(first & names & log & cmd & ->)];
    cbn [out_db out_task failTask fst Status OutputFiles OutputFile];
    unfold sqlSetFailed, sqlSetSucceeded, sqlSetStarted;
    (eexists; split; [rewrite !lookup_alter_eq, Hr; reflexivity|]); cbn.
  - split; [done|]. split; [done|]. by left.
  - split; [done|]. split; [done|]. by right.
Qed.

(** X11.  The life of a job leaves nothing behind.  When a submission
    is accepted, the task is processed, and the job is then deleted, the
    DELETE succeeds, the record is gone, and the files removed include
    the upload the submission created, the job's log file, its scratch
    directory and every file of its output list. *)
Theorem X11_delete_removes_files req io s id ops s1 now w :
  submitTaskHandler req io s = (ReplyAccepted id, ops, s1) →
  ∃ task path,
    last (taskQueue s1) = Some task
    ∧ ops = [FsCreate path]
    ∧ let o := processTask now w task (db s1) in
      let res := deleteTaskHandler "DELETE" id (out_db o) in
      res.1.1 = ReplyDeleted
      ∧ res.2 !! id = None
      ∧ FsRemove path ∈ res.1.2
      ∧ FsRemove (logPath id) ∈ res.1.2
      ∧ FsRemoveAll (Filepath.Join [outputDir; id]) ∈ res.1.2
      ∧ ∀ name, name ∈ OutputFiles (out_task o) →
          FsRemove (Filepath.Join [outputDir; name]) ∈ res.1.2.
Proof.
  intros Hsub.
  destruct (generatedID req io) as [id'|] eqn:Hid.
  2:{ exfalso. revert Hsub Hid. unfold submitTaskHandler, generatedID.
      case_bool_decide; [done|].
      destruct (multipartOK req); [|done].
      destruct (FormFile req) as [h|]; [|done].
      by destruct (GoStrings.HasSuffix (GoStrings.ToLower h) ".pdf"). }
  pose proof Hid as (_ & _ & h & Hf & _ & ->)%generatedID_Some.
  rewrite (submit_generated req io s _ h Hid Hf) in Hsub. cbn zeta in Hsub.
  destruct (createOK io); [|done]. destruct (copyOK io); [|done]. cbn [negb] in Hsub.
  destruct (sqlInsert (newTask req io h) (db s)) as [d1|] eqn:Hins; [|done].
  injection Hsub as <- <- <-.
  apply sqlInsert_Some in Hins as [_ ->].
  set (task := newTask req io h). set (id := genTaskID _ _).
  assert (HID : ID task = id) by done.
  exists task, (uploadPath (genTimestamp (nowStamp io)) h).
  cbn [taskQueue db]. split; [by rewrite last_snoc|]. split; [done|]. cbn zeta.
  set (d1 := <[ID task := _]> (db s)).
  assert (Hr1 : d1 !! ID task = Some (mkRow (ID task) (Filename task) (Status task)
                  (Some (LangIn task)) (Some (LangOut task)) (Some (Pages task))
                  (Params task) (CreatedAt task) None None None None None))
    by apply lookup_insert_eq.
  destruct (processTask_row now w task d1 _ Hr1) as (r' & Hr' & Hfn & _ & Hout).
  rewrite HID in Hr'.
  destruct (deleteTaskHandler_found id (out_db (processTask now w task d1)) r'
              (genTaskID_nonempty _ _) Hr') as (dops & -> & Hup & Hlog & Hdir & Hnames).
  cbn [fst snd]. split; [done|]. split; [apply lookup_delete_eq|].
  split; [|split; [done|split; [done|]]].
  - rewrite <- (workerInputPath_newTask req io h).
    unfold workerInputPath. fold task. rewrite HID. by rewrite Hfn in Hup.
  - intros name Hin. apply Hnames.
    destruct Hout as [(_ & _ & _ & Ho)|(_ & -> & _)]; [|done].
    rewrite Ho in Hin. by apply elem_of_nil in Hin.
Qed.

Lemma X11_delete_removes_files_witness :
  ∃ task path,
    last (taskQueue (Sample.submitted Sample.reqPlain 5)) = Some task
    ∧ [FsCreate "/tmp/babeldoc/uploads/20240101-120000_report.pdf"] = [FsCreate path]
    ∧ FsRemove path
      ∈ (deleteTaskHandler "DELETE" "20240101-120000_305"
           (out_db (processTask (Sample.noon 2000) Sample.worldSlow task
                      (db (Sample.submitted Sample.reqPlain 5))))).1.2.
Proof.
  destruct (X11_delete_removes_files Sample.reqPlain (Sample.io 5) initServer
              "20240101-120000_305"
              [FsCreate "/tmp/babeldoc/uploads/20240101-120000_report.pdf"]
              (Sample.submitted Sample.reqPlain 5) (Sample.noon 2000) Sample.worldSlow
              eq_refl) as (task & path & Hq & Hops & _ & _ & Hrm & _).
  exists task, path. split; [exact Hq|]. split; [exact Hops|exact Hrm].
Defined.

(** ** The worker loop and rows over time *)

Lemma runTask_other w task (d : gmap string Row) id' :
  id' ≠ ID task → out_db (runTask w task d) !! id' = d !! id'.
Proof.
  intros Hne.
  destruct (runTask_cases w task d)
    as [(msg & log & cmd & ->)|(first & names & log & cmd & ->)];
    cbn [out_db]; unfold sqlSetFailed, sqlSetSucceeded; by rewrite lookup_alter_ne.
Qed.

Lemma processTask_other now w task (d : gmap string Row) id' :
  id' ≠ ID task → out_db (processTask now w task d) !! id' = d !! id'.
Proof.
  intros Hne. rewrite processTask_unfold, runTask_other, beginTask_db by done.
  unfold sqlSetStarted. by rewrite lookup_alter_ne.
Qed.

Lemma processTask_dom now w task (d : gmap string Row) id :
  is_Some (out_db (processTask now w task d) !! id) ↔ is_Some (d !! id).
Proof.
  destruct (decide (id = ID task)) as [->|Hne]; [|by rewrite processTask_other].
  rewrite processTask_unfold, beginTask_db.
  set (task' := (beginTask now task d).1). change (ID task) with (ID task').
  destruct (runTask_cases w task' (sqlSetStarted (ID task') running (Some now) d))
    as [(msg & log & cmd & ->)|(first & names & log & cmd & ->)];
    cbn [out_db]; unfold sqlSetFailed, sqlSetSucceeded, sqlSetStarted;
    rewrite !lookup_alter_eq, !fmap_is_Some; done.
Qed.

Lemma processTask_row_terminal now w task (d : gmap string Row) r :
  out_db (processTask now w task d) !! ID task = Some r →
  terminal (row_status r) ∧ row_completed_at r = Some (doneAt w).
Proof.
  rewrite processTask_unfold, beginTask_db.
  set (task' := (beginTask now task d).1). change (ID task) with (ID task').
  destruct (runTask_cases w task' (sqlSetStarted (ID task') running (Some now) d))
    as [(msg & log & cmd & ->)|(first & names & log & cmd & ->)];
    cbn [out_db]; unfold sqlSetFailed, sqlSetSucceeded, sqlSetStarted;
    rewrite !lookup_alter_eq; destruct (d !! ID task') as [r0|]; cbn;
    intros [= <-]; cbn; split; try done; [by right|by left].
Qed.

(** X12.  Left to itself, the worker takes the queued tasks one at a
    time in the order of submission: after [n] answers of the
    surroundings the queue has lost its first [n] tasks, and is empty
    when there were at least as many answers as tasks.  Rows of other
    identifiers are as before, no row appears or disappears, and the row
    of every task taken, if it is still there, is success or failed with
    a completion time. *)
Theorem X12_worker_in_order answers s :
  let s' := taskWorker answers s in
  let taken := take (length answers) (taskQueue s) in
  taskQueue s' = drop (length answers) (taskQueue s)
  ∧ (length (taskQueue s) ≤ length answers → taskQueue s' = [])
  ∧ (∀ id, id ∉ ID <$> taken → db s' !! id = db s !! id)
  ∧ (∀ id, is_Some (db s' !! id) ↔ is_Some (db s !! id))
  ∧ (∀ t r, t ∈ taken → db s' !! ID t = Some r →
       terminal (row_status r) ∧ is_Some (row_completed_at r)).
Proof.
  cbn zeta.
  assert (H : taskQueue (taskWorker answers s) = drop (length answers) (taskQueue s)
    ∧ (∀ id, id ∉ ID <$> take (length answers) (taskQueue s) →
         db (taskWorker answers s) !! id = db s !! id)
    ∧ (∀ id, is_Some (db (taskWorker answers s) !! id) ↔ is_Some (db s !! id))
    ∧ (∀ t r, t ∈ take (length answers) (taskQueue s) →
         db (taskWorker answers s) !! ID t = Some r →
         terminal (row_status r) ∧ is_Some (row_completed_at r))).
  { revert s. induction answers as [|[now w] more IH]; intros s.
    - cbn. rewrite drop_0. split; [done|]. split; [done|]. split; [done|].
      by intros t r ?%elem_of_nil.
    - cbn [taskWorker length]. destruct (taskQueue s) as [|task rest] eqn:Hq.
      + cbn. split; [done|]. split; [done|]. split; [done|].
        by intros t r ?%elem_of_nil.
      + set (s1 := mkServer (out_db (processTask now w task (db s))) rest None).
        destruct (IH s1) as (IH1 & IH2 & IH3 & IH4). cbn [taskQueue db s1] in *.
        cbn [take drop fmap list_fmap]. split; [done|]. split; [|split].
        * intros id [Hne Hnot]%not_elem_of_cons.
          rewrite IH2 by done. by apply processTask_other.
        * intros id. rewrite IH3. apply processTask_dom.
        * intros t r Hin Hr.
          destruct (decide (ID t ∈ ID <$> take (length more) rest)) as [Hlater|Hnot].
          -- apply list_elem_of_fmap in Hlater as (t' & Heq & Hin').
             rewrite Heq in Hr. by apply (IH4 t' r).
          -- rewrite IH2 in Hr by done.
             apply elem_of_cons in Hin as [->|Hin];
               [|by destruct Hnot; apply list_elem_of_fmap; exists t].
             apply processTask_row_terminal in Hr as [? ->]. by split. }
  destruct H as (H1 & H2 & H3 & H4).
  split; [done|]. split; [|done].
  intros Hlen. rewrite H1. by apply drop_ge.
Qed.

(** A row whose identifier no task in memory carries is changed by no
    event but a DELETE for it. *)
Lemma step_row_untouched s e id r :
  db s !! id = Some r →
  (∀ t, t ∈ taskQueue s → ID t ≠ id) →
  (∀ t, current s = Some t → ID t ≠ id) →
  (∀ method, e ≠ EvDelete method id) →
  db (step s e) !! id = Some r
  ∧ (∀ t, t ∈ taskQueue (step s e) → ID t ≠ id)
  ∧ (∀ t, current (step s e) = Some t → ID t ≠ id).
Proof.
  intros Hr Hq Hc He.
  destruct e as [req io|method taskID|now|w|]; cbn [step].
  - destruct (generatedID req io) as [id'|] eqn:Hid;
      [|by rewrite submit_not_generated].
    pose proof Hid as (_ & _ & h & Hf & _ & Heq)%generatedID_Some.
    rewrite (submit_generated req io s id' h Hid Hf). cbn zeta.
    destruct (createOK io); [|done]. destruct (copyOK io); [|done]. cbn [negb].
    destruct (sqlInsert (newTask req io h) (db s)) as [d'|] eqn:Hins; [|done].
    apply sqlInsert_Some in Hins as [Hnone ->]. cbn [snd db taskQueue current].
    assert (Hne : ID (newTask req io h) ≠ id) by (intros Heq'; congruence).
    split; [by rewrite lookup_insert_ne|]. split; [|done].
    intros t [Hin|Hin]%elem_of_app; [by apply Hq|].
    by apply list_elem_of_singleton in Hin as ->.
  - cbn [db taskQueue current]. split; [|done].
    unfold deleteTaskHandler. case_bool_decide as Hm; [done|].
    case_bool_decide; [done|]. destruct (db s !! taskID) eqn:Hrow; [|done].
    cbn [snd]. rewrite lookup_delete_ne; [exact Hr|].
    intros ->. by apply (He method).
  - destruct (current s) as [cur|] eqn:Hcur.
    { split; [done|]. split; [done|]. intros t Ht. apply Hc. by rewrite <- Hcur. }
    destruct (taskQueue s) as [|task rest] eqn:Htq.
    { split; [done|]. split; [|by rewrite Hcur]. rewrite Htq. by intros t ?%elem_of_nil. }
    destruct (beginTask now task (db s)) as [task' d'] eqn:Hb.
    cbn [db taskQueue current].
    assert (Hne : ID task ≠ id) by apply Hq, list_elem_of_here.
    pose proof (beginTask_db now task (db s)) as Hd. rewrite Hb in Hd. cbn in Hd.
    pose proof (beginTask_task now task (db s)) as Ht. rewrite Hb in Ht. cbn in Ht.
    split; [|split].
    + subst d'. unfold sqlSetStarted. by rewrite lookup_alter_ne.
    + intros t Hin. by apply Hq, list_elem_of_further.
    + intros t [= <-]. by subst task'.
  - destruct (current s) as [task|] eqn:Hcur;
      [|split; [done|]; split; [done|]; by rewrite Hcur].
    cbn [db taskQueue current]. split; [|done].
    rewrite runTask_other; [done|]. intros ->. by apply (Hc task).
  - cbn [db taskQueue current]. split; [done|]. split; [|done].
    by intros t ?%elem_of_nil.
Qed.

Lemma run_row_untouched trace s id r :
  db s !! id = Some r →
  (∀ t, t ∈ taskQueue s → ID t ≠ id) →
  (∀ t, current s = Some t → ID t ≠ id) →
  (∀ method, EvDelete method id ∉ trace) →
  db (run s trace) !! id = Some r.
Proof.
  revert s. induction trace as [|e trace IH]; intros s Hr Hq Hc Hdel; [done|].
  destruct (step_row_untouched s e id r Hr Hq Hc) as (Hr' & Hq' & Hc').
  - intros method ->. apply (Hdel method), list_elem_of_here.
  - apply (IH (step s e)); try done.
    intros method Hin. by apply (Hdel method), list_elem_of_further.
Qed.

(** X13.  A finished job stays as it is.  In a run whose submissions
    generated distinct identifiers, once a row is success or failed no
    later event changes it, whatever is submitted, processed or deleted
    under other identifiers, until a DELETE request for its own
    identifier arrives. *)
Theorem X13_terminal_row_frozen trace1 trace2 id r :
  NoDup (omap eventID trace1) →
  db (run initServer trace1) !! id = Some r →
  terminal (row_status r) →
  (∀ method, EvDelete method id ∉ trace2) →
  db (run initServer (trace1 ++ trace2)) !! id = Some r.
Proof.
  intros Hnd Hr Hterm Hdel. unfold run. rewrite foldl_app.
  destruct (lifecycleInv_run trace1 [] initServer lifecycleInv_init Hnd)
    as [used (_ & Hq & _ & Hc)]; [by intros ? _ ?%elem_of_nil|].
  apply run_row_untouched; try done.
  - intros t Hin <-. destruct (Hq t Hin) as (_ & _ & Hrow).
    destruct (Hrow r Hr) as (Hst & _). rewrite Hst in Hterm.
    by destruct Hterm.
  - intros t Hcur <-. destruct (Hc t Hcur) as (_ & _ & _ & Hrow).
    destruct (Hrow r Hr) as (Hst & _). rewrite Hst in Hterm.
    by destruct Hterm.
Qed.

Lemma X13_terminal_row_frozen_witness :
  ∃ r, row_status r = success
       ∧ db (run initServer
               ([EvSubmit Sample.reqPlain (Sample.io 5); EvDequeue (Sample.noon 2000);
                 EvFinish Sample.worldSlow]
                ++ [EvSubmit Sample.reqOther (Sample.io 7777);
                    EvDelete "DELETE" "20240101-120000_8077";
                    EvDequeue Sample.later; EvFinish Sample.worldFailing]))
            !! "20240101-120000_305" = Some r.
Proof.
  destruct (db (run initServer
                  [EvSubmit Sample.reqPlain (Sample.io 5); EvDequeue (Sample.noon 2000);
                   EvFinish Sample.worldSlow]) !! "20240101-120000_305")
    as [r|] eqn:Hr; [|vm_compute in Hr; discriminate Hr].
  assert (Hst : row_status r = success).
  { vm_compute in Hr. injection Hr as <-. reflexivity. }
  exists r. split; [exact Hst|].
  apply X13_terminal_row_frozen.
  - vm_compute. apply NoDup_singleton.
  - exact Hr.
  - left. exact Hst.
  - intros method Hin.
    repeat (apply elem_of_cons in Hin as [Hin|Hin]; [discriminate Hin|]).
    by apply elem_of_nil in Hin.
Defined.

(** X14.  Jobs are not resumed.  The queue lives in memory only and
    [main] does not read the table back: after a restart every row is
    as it was, and a row that was queued or running then stays so
    whatever happens afterwards, until it is deleted. *)
Theorem X14_restart_strands_rows trace1 trace2 id r :
  db (run initServer trace1) !! id = Some r →
  (∀ method, EvDelete method id ∉ trace2) →
  db (run initServer (trace1 ++ EvRestart :: trace2)) !! id = Some r.
Proof.
  intros Hr Hdel. unfold run. rewrite foldl_app. cbn [foldl step].
  apply run_row_untouched; try done.
  by intros t ?%elem_of_nil.
Qed.

Lemma X14_restart_strands_rows_witness :
  ∃ r, row_status r = queued
       ∧ db (run initServer
               ([EvSubmit Sample.reqPlain (Sample.io 5)]
                ++ EvRestart :: [EvDequeue (Sample.noon 2000); EvFinish Sample.worldSlow]))
            !! "20240101-120000_305" = Some r.
Proof.
  destruct (db (run initServer [EvSubmit Sample.reqPlain (Sample.io 5)])
              !! "20240101-120000_305") as [r|] eqn:Hr;
    [|vm_compute in Hr; discriminate Hr].
  assert (Hst : row_status r = queued).
  { vm_compute in Hr. injection Hr as <-. reflexivity. }
  exists r. split; [exact Hst|].
  apply X14_restart_strands_rows; [exact Hr|].
  intros method Hin.
  repeat (apply elem_of_cons in Hin as [Hin|Hin]; [discriminate Hin|]).
  by apply elem_of_nil in Hin.
Defined.

(** ** Downloads *)





(** ** The detail endpoint and the listing *)

Lemma runTask_dom w task (d : gmap string Row) id :
  is_Some (out_db (runTask w task d) !! id) → is_Some (d !! id).
Proof.
  destruct (runTask_cases w task d)
    as [(msg & log & cmd & ->)|(first & names & log & cmd & ->)];
    cbn [out_db]; unfold sqlSetFailed, sqlSetSucceeded;
    (destruct (decide (ID task = id)) as [<-|Hne];
     [rewrite lookup_alter_eq, fmap_is_Some|rewrite lookup_alter_ne by done]; done).
Qed.

(** No event stores a row under the empty identifier. *)
Lemma step_keys_nonempty s e :
  (∀ id, is_Some (db s !! id) → id ≠ "") →
  ∀ id, is_Some (db (step s e) !! id) → id ≠ "".
Proof.
  intros Hs id.
  destruct e as [req io|method taskID|now|w|]; cbn [step].
  - destruct (generatedID req io) as [id'|] eqn:Hid;
      [|rewrite submit_not_generated by done; apply Hs].
    pose proof Hid as (_ & _ & h & Hf & _ & Heq)%generatedID_Some.
    rewrite (submit_generated req io s id' h Hid Hf). cbn zeta.
    destruct (createOK io); [|apply Hs]. destruct (copyOK io); [|apply Hs]. cbn [negb].
    destruct (sqlInsert (newTask req io h) (db s)) as [d'|] eqn:Hins; [|apply Hs].
    apply sqlInsert_Some in Hins as [_ ->]. cbn [snd db].
    destruct (decide (ID (newTask req io h) = id)) as [<-|Hne].
    + intros _. apply genTaskID_nonempty.
    + rewrite lookup_insert_ne by done. apply Hs.
  - cbn [db]. destruct (deleteTaskHandler_db method taskID (db s)) as [->| ->];
      [apply Hs|].
    destruct (decide (taskID = id)) as [<-|Hne].
    + rewrite lookup_delete_eq. by intros [? ?].
    + rewrite lookup_delete_ne by done. apply Hs.
  - destruct (current s) eqn:Hcur; [apply Hs|].
    destruct (taskQueue s) as [|task rest] eqn:Htq; [apply Hs|].
    pose proof (beginTask_db now task (db s)) as Hd.
    destruct (beginTask now task (db s)) as [task' d']. cbn in Hd. subst d'.
    cbn [db]. unfold sqlSetStarted.
    destruct (decide (ID task = id)) as [<-|Hne].
    + rewrite lookup_alter_eq, fmap_is_Some. apply Hs.
    + rewrite lookup_alter_ne by done. apply Hs.
  - destruct (current s) as [task|] eqn:Hcur; [|apply Hs].
    cbn [db]. intros H%runTask_dom. by apply Hs.
  - apply Hs.
Qed.

Lemma run_keys_nonempty trace id :
  is_Some (db (run initServer trace) !! id) → id ≠ "".
Proof.
  assert (H : ∀ s, (∀ id, is_Some (db s !! id) → id ≠ "") →
                   ∀ id, is_Some (db (run s trace) !! id) → id ≠ "").
  { induction trace as [|e trace IH]; intros s Hs; [done|].
    apply (IH (step s e)), step_keys_nonempty, Hs. }
  apply H. intros id'. cbn. rewrite lookup_empty. by intros [? ?].
Qed.

Lemma scanned_ids (l : list (string * Row)) :
  (∀ id r, (id, r) ∈ l → row_id r = id ∧ rowScans r) →
  ID <$> omap scanTask l.*2 = l.*1.
Proof.
  induction l as [|[id r] l IH]; intros Hl; [done|].
  destruct (Hl id r) as [Hid Hscan]; [apply list_elem_of_here|].
  destruct (scanTask_total r Hscan) as [t Ht].
  cbn. rewrite Ht. cbn. rewrite IH.
  - apply scanTask_Some in Ht as (-> & _). by rewrite Hid.
  - intros id' r' Hin. by apply Hl, list_elem_of_further.
Qed.

(** X16.  In every table the server can reach, the detail endpoint and
    the listing agree: a record is in the listing exactly when the
    detail endpoint returns it for its identifier; the record returned
    for an identifier carries that identifier; no row fails to scan; and
    no identifier occurs twice in the listing. *)
Theorem X16_detail_agrees_with_listing trace :
  let d := db (run initServer trace) in
  (∀ t, t ∈ listTasksHandler d ↔ taskDetailHandler (ID t) d = DetailTask t)
  ∧ (∀ id t, taskDetailHandler id d = DetailTask t → ID t = id)
  ∧ (∀ id, taskDetailHandler id d ≠ DetailScanError)
  ∧ NoDup (ID <$> listTasksHandler d).
Proof.
  cbn zeta. set (d := db (run initServer trace)).
  assert (Hd : tableSound d) by apply run_sound, initServer_sound.
  assert (Hne : ∀ id, is_Some (d !! id) → id ≠ "") by apply run_keys_nonempty.
  split; [|split; [|split]].
  - intros t. rewrite listTasksHandler_elem. unfold taskDetailHandler. split.
    + intros (id & r & Hr & Ht).
      destruct (Hd id r Hr) as (Hid & _).
      pose proof Ht as (Hidt & _)%scanTask_Some.
      assert (ID t = id) as -> by congruence.
      rewrite bool_decide_eq_false_2 by (by apply Hne; exists r).
      by rewrite Hr, Ht.
    + case_bool_decide; [done|].
      destruct (d !! ID t) as [r|] eqn:Hr; [|done].
      destruct (scanTask r) as [t'|] eqn:Ht; [|done].
      intros [= ->]. by exists (ID t), r.
  - intros id t. unfold taskDetailHandler. case_bool_decide; [done|].
    destruct (d !! id) as [r|] eqn:Hr; [|done].
    destruct (scanTask r) as [t'|] eqn:Ht; [|done].
    intros [= ->]. destruct (Hd id r Hr) as (Hid & _).
    apply scanTask_Some in Ht as (-> & _). done.
  - intros id. unfold taskDetailHandler. case_bool_decide; [done|].
    destruct (d !! id) as [r|] eqn:Hr; [|done].
    destruct (Hd id r Hr) as (_ & Hscan & _).
    by destruct (scanTask_total r Hscan) as [t ->].
  - unfold listTasksHandler, sqlSelectAll.
    rewrite merge_sort_Permutation, scanned_ids; [apply NoDup_fst_map_to_list|].
    intros id r Hin%elem_of_map_to_list.
    destruct (Hd id r Hin) as (Hid & Hscan & _). done.
Qed.

(** ** Deleting a job that has not run yet *)

Lemma runTask_table_blind w task (d d' : gmap string Row) :
  out_task (runTask w task d') = out_task (runTask w task d)
  ∧ out_log (runTask w task d') = out_log (runTask w task d)
  ∧ out_cmd (runTask w task d') = out_cmd (runTask w task d).
Proof.
  unfold runTask, failWith.
  destruct (logCreateOK w); cbn [negb]; [|done].
  destruct (resolveOpenAI w (scanParams task (baseArgs task))) as [line [args1|]];
    [|done].
  destruct (startErr w) as [err|]; [done|].
  destruct (waitErr w) as [err|]; [done|].
  destruct (globResult w) as [[|file fs]|]; [done| |done].
  by destruct (moveOutputs w (ID task) (file :: fs)) as [[|first names] lines].
Qed.

Lemma processTask_absent now w task (d : gmap string Row) :
  d !! ID task = None → out_db (processTask now w task d) = d.
Proof.
  intros Hnone. rewrite processTask_unfold, beginTask_db.
  set (task' := (beginTask now task d).1). change (ID task) with (ID task') in *.
  destruct (runTask_cases w task' (sqlSetStarted (ID task') running (Some now) d))
    as [(msg & log & cmd & ->)|(first & names & log & cmd & ->)];
    cbn [out_db]; unfold sqlSetFailed, sqlSetSucceeded, sqlSetStarted;
    by rewrite !alter_absent by (by rewrite ?alter_absent).
Qed.

(** X17.  A DELETE does not cancel a job.  [processTask] never reads
    the table, so the task ends the same way, with the same log and the
    same command, whatever the table holds; for a job deleted while it
    waited in the queue the child is still run as if nothing had
    happened, and the table stays without its row. *)
Theorem X17_delete_does_not_cancel now w task (d d' : gmap string Row) :
  let o := processTask now w task d in
  let o' := processTask now w task d' in
  let gone := (deleteTaskHandler "DELETE" (ID task) d).2 in
  out_task o' = out_task o ∧ out_log o' = out_log o ∧ out_cmd o' = out_cmd o
  ∧ (ID task ≠ "" →
       gone !! ID task = None
       ∧ out_db (processTask now w task gone) = gone
       ∧ out_cmd (processTask now w task gone) = out_cmd o).
Proof.
  cbn zeta.
  assert (Hblind : ∀ d1 d2,
    out_task (processTask now w task d1) = out_task (processTask now w task d2)
    ∧ out_log (processTask now w task d1) = out_log (processTask now w task d2)
    ∧ out_cmd (processTask now w task d1) = out_cmd (processTask now w task d2)).
  { intros d1 d2. rewrite !processTask_unfold.
    change (beginTask now task d1).1 with (beginTask now task d2).1.
    apply runTask_table_blind. }
  destruct (Hblind d' d) as (H1 & H2 & H3).
  split; [done|]. split; [done|]. split; [done|].
  intros Hid.
  assert (Hgone : (deleteTaskHandler "DELETE" (ID task) d).2 !! ID task = None).
  { destruct (d !! ID task) as [r|] eqn:Hr.
    - destruct (deleteTaskHandler_found (ID task) d r Hid Hr) as (ops & -> & _).
      cbn [snd]. apply lookup_delete_eq.
    - by rewrite deleteTaskHandler_missing. }
  split; [done|]. split; [by apply processTask_absent|].
  apply Hblind.
Qed.

(** ** The store and the worker *)





